(** * Replay buffers of [phase_03_dqn/utils/replay_buffer.py]

    A shallow embedding of the three buffer classes of the module
    ([ReplayBuffer], [PriortizedReplayBuffer], [RainbowReplayBuffer]) and
    the properties of their [push], [sample], [update_priorities] and
    [__len__] methods.

    Conventions of the embedding.
    - Python integers are [Z]; lengths of Python lists are [nat].
    - Python and NumPy floating-point numbers are idealised as real numbers
      ([R]) with exact arithmetic; [np.power] is [Rpower], which agrees
      with it on positive bases.  The real numbers have no [inf] and no
      [nan]: the statements that [sample] returns are kept to the stores
      whose priorities stay within the finite range of [float32]
      ([float32_range] below), where the arithmetic of the code is the one
      on real numbers but for rounding.
    - Observations (the [state] and [next_state] tensors) are opaque: every
      definition is parametric in their type [Obs], the tensors of the
      one shape of the environment, which [torch.stack] accepts.
    - A method is a function from the object's fields to the new fields and
      an [outcome]: the value returned, or the exception raised.  The fields
      returned with a raised exception are the ones the object is left
      with, since Python does not roll back the assignments made before the
      failure.
    - The pseudo-random draws of [random.sample] and [np.random.choice] are
      read from an explicit oracle [u : nat -> nat]. *)

From Stdlib Require Import ZArith Reals Lra Lia List Bool Sorted.
From stdpp Require Import base list.
Import ListNotations.

Open Scope Z_scope.

(** ** Python run-time primitives *)

Inductive PyExn : Type :=
  | ValueError
  | IndexError
  | TypeError
  | ZeroDivisionError
  | RuntimeError.

Inductive outcome (A : Type) : Type :=
  | Ok (a : A)
  | Raise (e : PyExn).

Arguments Ok {A} a.
Arguments Raise {A} e.

(** A method body: reads and writes the fields [S] of [self], and either
    returns a value or raises. *)
Definition M (S A : Type) : Type := S -> S * outcome A.

Definition ret {S A : Type} (a : A) : M S A := fun s => (s, Ok a).

Definition raise {S A : Type} (e : PyExn) : M S A := fun s => (s, Raise e).

Definition bind {S A B : Type} (m : M S A) (k : A -> M S B) : M S B :=
  fun s =>
    match m s with
    | (s', Ok a) => k a s'
    | (s', Raise e) => (s', Raise e)
    end.

Definition get {S : Type} : M S S := fun s => (s, Ok s).

Definition put {S : Type} (s' : S) : M S unit := fun _ => (s', Ok tt).

(** The result of a library call that may raise. *)
Definition lift {S A : Type} (o : outcome A) : M S A := fun s => (s, o).

Declare Scope py_scope.
Delimit Scope py_scope with py.

Notation "'let*' x ':=' c 'in' k" := (bind c (fun x => k))
  (at level 10, x pattern, c at level 100, k at level 200) : py_scope.
Notation "c ';;' k" := (bind c (fun _ => k))
  (at level 100, k at level 200, right associativity) : py_scope.

Open Scope py_scope.

(** [len(l)] as a Python integer. *)
Definition len {A : Type} (l : list A) : Z := Z.of_nat (length l).

(** Position addressed by the Python index [i] in a sequence of [n] items:
    [0 <= i < n] addresses [i], [-n <= i < 0] addresses [i + n], anything
    else is out of range.  Lists, deques and NumPy arrays share the rule. *)
Definition py_index (n : nat) (i : Z) : option nat :=
  if (0 <=? i) && (i <? Z.of_nat n) then Some (Z.to_nat i)
  else if (- Z.of_nat n <=? i) && (i <? 0) then Some (Z.to_nat (i + Z.of_nat n))
  else None.

(** [l[i]]. *)
Definition getitem {A : Type} (l : list A) (i : Z) : outcome A :=
  match py_index (length l) i with
  | Some j =>
      match l !! j with
      | Some x => Ok x
      | None => Raise IndexError
      end
  | None => Raise IndexError
  end.

(** [l[i] = x]. *)
Definition setitem {A : Type} (l : list A) (i : Z) (x : A) : outcome (list A) :=
  match py_index (length l) i with
  | Some j => Ok (<[j := x]> l)
  | None => Raise IndexError
  end.

(** [a % b] on integers: the result has the sign of [b], as [Z.modulo]. *)
Definition py_mod (a b : Z) : outcome Z :=
  if b =? 0 then Raise ZeroDivisionError else Ok (a mod b).

(** [l[:i]] for a Python integer [i]. *)
Definition slice_to {A : Type} (l : list A) (i : Z) : list A :=
  if 0 <=? i then take (Z.to_nat i) l
  else take (Z.to_nat (len l + i)) l.

(** [float(b)] of a Boolean, as used by [1 - done] and by
    [torch.tensor(dones, dtype=torch.float32)]. *)
Definition float_of_bool (b : bool) : R := if b then 1%R else 0%R.

(** [np.zeros((n,))]: negative dimensions are refused. *)
Definition np_zeros (n : Z) : outcome (list R) :=
  if n <? 0 then Raise ValueError else Ok (replicate (Z.to_nat n) 0%R).

(** [a.max()] of a one-dimensional array; an empty array has no maximum. *)
Definition np_max (a : list R) : outcome R :=
  match a with
  | [] => Raise ValueError
  | x :: xs => Ok (fold_left Rmax xs x)
  end.

(** [a.sum()]. *)
Definition np_sum (a : list R) : R := fold_right Rplus 0%R a.

(** [np.power]. *)
Definition np_power (x y : R) : R := Rpower x y.

(** [a[i]] for an index array element. *)
Definition np_getitem (a : list R) (i : Z) : outcome R := getitem a i.

(** [np.random.choice(n, size, p=p)] (sampling with replacement).  It raises
    when there is nothing to draw from, when [p] has not one entry per item
    and when the size is negative; otherwise draw [j] is the oracle's value
    [u j] reduced to the population.  NumPy also refuses a vector [p] that
    holds a [nan] or a negative entry, or that does not sum to 1: the
    vector that [sample] computes on real numbers is never one of these,
    and the one the code computes is not either when the store is in
    [float32_range]. *)
Definition np_random_choice (u : nat -> nat) (n size : Z) (p : list R)
  : outcome (list Z) :=
  if n <=? 0 then Raise ValueError
  else if negb (len p =? n) then Raise ValueError
  else if size <? 0 then Raise ValueError
  else Ok (map (fun j => Z.of_nat (u j) mod n) (seq 0 (Z.to_nat size))).

(** Removal of position [i] of a list. *)
Definition remove_at {A : Type} (i : nat) (l : list A) : list A :=
  take i l ++ drop (S i) l.

(** The [k] draws without replacement of [random.sample]: draw [j] takes
    position [u j] (reduced to the pool) out of what is left of the pool. *)
Fixpoint draw_distinct {A : Type} (u : nat -> nat) (j : nat) (pool : list A)
  (k : nat) : list A :=
  match k with
  | O => []
  | S k' =>
      let i := (u j mod length pool)%nat in
      match pool !! i with
      | Some x => x :: draw_distinct u (S j) (remove_at i pool) k'
      | None => []
      end
  end.

(** [random.sample(population, k)]: raises unless [0 <= k <= len]. *)
Definition random_sample {A : Type} (u : nat -> nat) (population : list A)
  (k : Z) : outcome (list A) :=
  if (0 <=? k) && (k <=? len population)
  then Ok (draw_distinct u 0 population (Z.to_nat k))
  else Raise ValueError.

(** [collections.deque(maxlen=n)]: a negative bound is refused. *)
Definition deque_new (maxlen : Z) : outcome unit :=
  if maxlen <? 0 then Raise ValueError else Ok tt.

(** [d.append(x)] on a deque bounded by [maxlen]: a full deque drops its
    oldest item, a deque of bound zero stays empty. *)
Definition deque_append {A : Type} (maxlen : Z) (d : list A) (x : A) : list A :=
  if maxlen =? 0 then []
  else if len d =? maxlen then drop 1 d ++ [x]
  else d ++ [x].

(** ** Transitions *)

Record Transition (Obs : Type) : Type := mkTransition {
  state : Obs;
  action : Z;
  reward : R;
  next_state : Obs;
  done : bool
}.

Arguments mkTransition {Obs} _ _ _ _ _.
Arguments state {Obs} _.
Arguments action {Obs} _.
Arguments reward {Obs} _.
Arguments next_state {Obs} _.
Arguments done {Obs} _.

(** [for x in l: body(x)]. *)
Fixpoint for_each {S A : Type} (body : A -> M S unit) (l : list A) : M S unit :=
  match l with
  | [] => ret tt
  | x :: l' => body x ;; for_each body l'
  end.

(** [[f(x) for x in l]] where [f] may raise. *)
Fixpoint map_outcome {A B : Type} (f : A -> outcome B) (l : list A)
  : outcome (list B) :=
  match l with
  | [] => Ok []
  | x :: l' =>
      match f x with
      | Raise e => Raise e
      | Ok y =>
          match map_outcome f l' with
          | Raise e => Raise e
          | Ok ys => Ok (y :: ys)
          end
      end
  end.

(** The integers of a [torch.long] tensor are the 64-bit signed ones. *)
Definition int64_bound : Z := 2 ^ 63.

Definition in_int64 (z : Z) : bool :=
  (- int64_bound <=? z) && (z <? int64_bound).

(** [torch.tensor(xs, dtype=torch.long)] keeps the integers it is given,
    and raises ([RuntimeError], overflow when unpacking) when one of them
    is not a 64-bit signed integer. *)
Definition torch_tensor_long (xs : list Z) : outcome (list Z) :=
  if forallb in_int64 xs then Ok xs else Raise RuntimeError.

(** [torch.tensor(xs, dtype=torch.float32)] keeps the values it is given
    and [torch.stack] keeps the observations. *)
Definition torch_tensor_float (xs : list R) : list R := xs.
Definition torch_stack {Obs : Type} (xs : list Obs) : list Obs := xs.

(** ** [class ReplayBuffer] (lines 6-32) *)

Module ReplayBuffer.
Section WithObs.
Context {Obs : Type}.

(** The tuple stored by [push]. *)
Record Entry : Type := mkEntry {
  transition : Transition Obs;
  next_action : option Z
}.

(** The fields of [self].  The [device] handle only tells the tensor
    runtime where to place a batch and is left out. *)
Record t : Type := mk {
  capacity : Z;
  buffer : list (option Entry);
  pos : Z
}.

Definition set_buffer (b : list (option Entry)) (self : t) : t :=
  mk (capacity self) b (pos self).

Definition set_pos (p : Z) (self : t) : t :=
  mk (capacity self) (buffer self) p.

Definition __init__ (capacity : Z) : outcome t :=
  Ok (mk capacity [] 0).

Definition push (tr : Transition Obs) (next_action : option Z) : M t unit :=
  let* self := get in
  (if len (buffer self) <? capacity self
   then put (set_buffer (buffer self ++ [None]) self)
   else ret tt) ;;
  let* self := get in
  let* buf := lift (setitem (buffer self) (pos self)
                      (Some (mkEntry tr next_action))) in
  put (set_buffer buf self) ;;
  let* self := get in
  let* p := lift (py_mod (pos self + 1) (capacity self)) in
  put (set_pos p self).

(** The six tuples produced by [zip( *batch)]. *)
Record Columns : Type := mkColumns {
  col_states : list Obs;
  col_actions : list Z;
  col_rewards : list R;
  col_next_states : list Obs;
  col_dones : list bool;
  col_next_actions : list (option Z)
}.

(** [zip( *batch)] unpacked into six names: a [None] item cannot be
    iterated, and an empty batch yields nothing to unpack. *)
Definition zip_star (batch : list (option Entry)) : outcome Columns :=
  match map_outcome (fun o => match o with
                              | Some e => Ok e
                              | None => Raise TypeError
                              end) batch with
  | Raise e => Raise e
  | Ok [] => Raise ValueError
  | Ok rows =>
      Ok (mkColumns (map (fun e => state (transition e)) rows)
                    (map (fun e => action (transition e)) rows)
                    (map (fun e => reward (transition e)) rows)
                    (map (fun e => next_state (transition e)) rows)
                    (map (fun e => done (transition e)) rows)
                    (map next_action rows))
  end.

(** The tuple returned by [sample]. *)
Record Batch : Type := mkBatch {
  states : list Obs;
  actions : list Z;
  rewards : list R;
  next_states : list Obs;
  dones : list R;
  next_actions : list Z
}.

Definition sample (u : nat -> nat) (batch_size : Z) : M t Batch :=
  let* self := get in
  let* batch := lift (random_sample u (buffer self) batch_size) in
  let* cols := lift (zip_star batch) in
  let states := torch_stack (col_states cols) in
  let* actions := lift (torch_tensor_long (col_actions cols)) in
  let rewards := torch_tensor_float (col_rewards cols) in
  let next_states := torch_stack (col_next_states cols) in
  let dones := torch_tensor_float (map float_of_bool (col_dones cols)) in
  let* next_actions := lift (torch_tensor_long actions) in
  ret (mkBatch states actions rewards next_states dones next_actions).

Definition __len__ (self : t) : Z := len (buffer self).

End WithObs.
Arguments Entry : clear implicits.
Arguments t : clear implicits.
Arguments Columns : clear implicits.
Arguments Batch : clear implicits.
End ReplayBuffer.

(** ** [class PriortizedReplayBuffer] (lines 35-95) *)

Module PriortizedReplayBuffer.

(** Default values of the keyword arguments of [__init__]. *)
Definition default_alpha : R := 0.6%R.
Definition default_beta : R := 0.4%R.
Definition default_beta_increment_per_sampling : R := 0.001%R.
Definition default_epsilon : R := 0.00001%R.

Section WithObs.
Context {Obs : Type}.

(** The fields of [self] ([device] is left out, as for [ReplayBuffer]). *)
Record t : Type := mk {
  capacity : Z;
  alpha : R;
  beta : R;
  beta_increment : R;
  epsilon : R;
  memory : list (Transition Obs);
  priorities : list R;
  pos : Z
}.

Definition set_memory (m : list (Transition Obs)) (self : t) : t :=
  mk (capacity self) (alpha self) (beta self) (beta_increment self)
     (epsilon self) m (priorities self) (pos self).

Definition set_priorities (p : list R) (self : t) : t :=
  mk (capacity self) (alpha self) (beta self) (beta_increment self)
     (epsilon self) (memory self) p (pos self).

Definition set_pos (p : Z) (self : t) : t :=
  mk (capacity self) (alpha self) (beta self) (beta_increment self)
     (epsilon self) (memory self) (priorities self) p.

Definition set_beta (b : R) (self : t) : t :=
  mk (capacity self) (alpha self) b (beta_increment self)
     (epsilon self) (memory self) (priorities self) (pos self).

Definition __init__ (capacity : Z)
  (alpha beta beta_increment_per_sampling epsilon : R) : outcome t :=
  match np_zeros capacity with
  | Raise e => Raise e
  | Ok zeros =>
      Ok (mk capacity alpha beta beta_increment_per_sampling epsilon
             [] zeros 0)
  end.

Definition push (data : Transition Obs) : M t unit :=
  let* self := get in
  let* max_prior :=
    match memory self with
    | [] => ret 1%R
    | _ :: _ => lift (np_max (priorities self))
    end in
  (if len (memory self) <? capacity self
   then put (set_memory (memory self ++ [data]) self)
   else
     let* m := lift (setitem (memory self) (pos self) data) in
     put (set_memory m self)) ;;
  let* self := get in
  let* p := lift (setitem (priorities self) (pos self) max_prior) in
  put (set_priorities p self) ;;
  let* self := get in
  let* q := lift (py_mod (pos self + 1) (capacity self)) in
  put (set_pos q self).

(** The tuple returned by [sample]. *)
Record Batch : Type := mkBatch {
  states : list Obs;
  actions : list Z;
  rewards : list R;
  next_states : list Obs;
  dones : list R;
  weights : list R;
  indices : list Z
}.

(** The priorities [sample] reads: the whole array once the memory is
    full, the slots below [pos] before. *)
Definition valid_priorities (self : t) : list R :=
  if len (memory self) =? capacity self
  then priorities self
  else slice_to (priorities self) (pos self).

(** The sampling distribution, [probs] after [probs /= probs.sum()]. *)
Definition sampling_probs (self : t) : list R :=
  let priorties := valid_priorities self in
  let probs := map (fun p => np_power (p + epsilon self) (alpha self)) priorties in
  let total := np_sum probs in
  map (fun p => (p / total)%R) probs.

(** [(total * probs[indices]) ** (-beta)], before the division by the
    maximum. *)
Definition raw_weights (self : t) (probs : list R) (indices : list Z)
  : outcome (list R) :=
  let total := len (memory self) in
  match map_outcome (np_getitem probs) indices with
  | Raise e => Raise e
  | Ok picked =>
      Ok (map (fun p => np_power (IZR total * p) (- beta self)) picked)
  end.

Definition sample (u : nat -> nat) (batch_size : Z) : M t Batch :=
  let* self := get in
  let probs := sampling_probs self in
  let* indices := lift (np_random_choice u (len (memory self)) batch_size probs) in
  let* samples := lift (map_outcome (getitem (memory self)) indices) in
  let* _ := lift (match samples with
                  | [] => Raise ValueError
                  | _ :: _ => Ok tt
                  end) in
  let states := torch_stack (map state samples) in
  let* actions := lift (torch_tensor_long (map action samples)) in
  let rewards := torch_tensor_float (map reward samples) in
  let next_states := torch_stack (map next_state samples) in
  let dones := torch_tensor_float (map (fun s => float_of_bool (done s)) samples) in
  let* weights := lift (raw_weights self probs indices) in
  let* wmax := lift (np_max weights) in
  let weights := map (fun w => (w / wmax)%R) weights in
  put (set_beta (Rmin 1 (beta self + beta_increment self)) self) ;;
  let weights := torch_tensor_float weights in
  ret (mkBatch states actions rewards next_states dones weights indices).

Definition update_priorities (indicies : list Z) (new_prior : list R)
  : M t unit :=
  for_each (fun '(idx, prior) =>
              let* self := get in
              let* p := lift (setitem (priorities self) idx prior) in
              put (set_priorities p self))
           (zip indicies new_prior).

Definition __len__ (self : t) : Z := len (memory self).

End WithObs.
Arguments t : clear implicits.
Arguments Batch : clear implicits.
End PriortizedReplayBuffer.

(** ** [class RainbowReplayBuffer] (lines 98-179)

    The class repeats the fields of [PriortizedReplayBuffer] and, line for
    line, its [sample] (lines 133-162), its [update_priorities] (lines
    164-166) and the storing half of its [push] (lines 122-131).  The
    embedding keeps those fields as the record [store] and runs the
    repeated bodies on it. *)

Module RainbowReplayBuffer.
Module P := PriortizedReplayBuffer.

Section WithObs.
Context {Obs : Type}.

Record t : Type := mk {
  store : P.t Obs;
  nstep : Z;
  nstep_buffer : list (Transition Obs)
}.

Definition alpha (self : t) : R := P.alpha (store self).

Definition set_store (s : P.t Obs) (self : t) : t :=
  mk s (nstep self) (nstep_buffer self).

Definition set_nstep_buffer (d : list (Transition Obs)) (self : t) : t :=
  mk (store self) (nstep self) d.

(** Runs a body written on the repeated fields. *)
Definition on_store {A : Type} (m : M (P.t Obs) A) : M t A :=
  fun self =>
    match m (store self) with
    | (s', o) => (set_store s' self, o)
    end.

Definition __init__ (capacity nstep : Z)
  (alpha beta beta_increment_per_sampling epsilon : R) : outcome t :=
  match P.__init__ capacity alpha beta beta_increment_per_sampling epsilon with
  | Raise e => Raise e
  | Ok s =>
      match deque_new nstep with
      | Raise e => Raise e
      | Ok _ => Ok (mk s nstep [])
      end
  end.

(** One turn of the loop of [_get_nstep_info]. *)
Definition nstep_fold_step (alpha : R) (transition : Transition Obs)
  (acc : R * Obs * bool) : R * Obs * bool :=
  let '(reward_, next_state_, done_) := acc in
  let reward' :=
    (reward transition
     + alpha * reward_ * (1 - float_of_bool (done transition)))%R in
  if done transition
  then (reward', next_state transition, done transition)
  else (reward', next_state_, done_).

(** The loop runs over [reversed(list(self.nstep_buffer)[:-1])]: over the
    items but the last, the most recent first. *)
Definition _get_nstep_info (self : t) : outcome (R * Obs * bool) :=
  match getitem (nstep_buffer self) (-1) with
  | Raise e => Raise e
  | Ok last =>
      let older := slice_to (nstep_buffer self) (-1) in
      Ok (fold_right (nstep_fold_step (alpha self))
                     (reward last, next_state last, done last)
                     older)
  end.

(** The argument [nstep] of [push] is not read by its body. *)
Definition push (nstep_arg : Z) (tr : Transition Obs) : M t unit :=
  let* self := get in
  put (set_nstep_buffer (deque_append (nstep self) (nstep_buffer self) tr) self) ;;
  let* self := get in
  if len (nstep_buffer self) <? nstep self then ret tt
  else
    let* first := lift (getitem (nstep_buffer self) 0) in
    let n_state := state first in
    let n_action := action first in
    let* info := lift (_get_nstep_info self) in
    let '(n_reward, n_next_state, n_done) := info in
    let data := mkTransition n_state n_action n_reward n_next_state (done tr) in
    on_store (P.push data).

Definition sample (u : nat -> nat) (batch_size : Z) : M t (P.Batch Obs) :=
  on_store (P.sample u batch_size).

Definition update_priorities (indicies : list Z) (new_prior : list R)
  : M t unit :=
  on_store (P.update_priorities indicies new_prior).

Definition __len__ (self : t) : Z := len (P.memory (store self)).

End WithObs.
Arguments t : clear implicits.
End RainbowReplayBuffer.

(** * Invariants and vocabulary of the statements *)

Module RB := ReplayBuffer.
Module P := PriortizedReplayBuffer.
Module NS := RainbowReplayBuffer.

(** [m] is the maximum of [a]: one of its entries, and no entry exceeds
    it. *)
Definition is_max (m : R) (a : list R) : Prop :=
  In m a /\ Forall (fun x => (x <= m)%R) a.

(** ** [ReplayBuffer] *)

Module ReplayBufferSpec.
Import ReplayBuffer.
Section WithObs.
Context {Obs : Type}.
Implicit Types (self : t Obs) (tr : Transition Obs).

(** The ring invariant: the cursor is the length while the buffer grows
    and stays below the capacity afterwards. *)
Definition ring self : Prop :=
  0 < capacity self /\
  len (buffer self) <= capacity self /\
  (len (buffer self) < capacity self -> pos self = len (buffer self)) /\
  0 <= pos self < capacity self.

(** A run of [push] calls. *)
Definition pushes (items : list (Transition Obs * option Z)) : M (t Obs) unit :=
  for_each (fun '(tr, na) => push tr na) items.

(** The stored [next_action] values replaced by [f]. *)
Definition with_next_actions (f : option Z -> option Z) self : t Obs :=
  mk (capacity self)
     (map (option_map (fun e => mkEntry (transition e) (f (next_action e))))
          (buffer self))
     (pos self).

End WithObs.
End ReplayBufferSpec.

(** ** [PriortizedReplayBuffer] *)

Module PriortizedReplayBufferSpec.
Import PriortizedReplayBuffer.
Section WithObs.
Context {Obs : Type}.
Implicit Types (self : t Obs) (data : Transition Obs).

(** The ring invariant of the priority store: one priority slot per
    memory slot of the capacity, and the cursor as in [ReplayBuffer]. *)
Definition ring self : Prop :=
  0 < capacity self /\
  len (priorities self) = capacity self /\
  len (memory self) <= capacity self /\
  (len (memory self) < capacity self -> pos self = len (memory self)) /\
  0 <= pos self < capacity self.

(** The fields after a [push] that found [max_prior] as the priority of
    the new slot. *)
Definition pushed data (max_prior : R) self : t Obs :=
  mk (capacity self) (alpha self) (beta self) (beta_increment self)
     (epsilon self)
     (if len (memory self) <? capacity self
      then memory self ++ [data]
      else <[Z.to_nat (pos self) := data]> (memory self))
     (<[Z.to_nat (pos self) := max_prior]> (priorities self))
     ((pos self + 1) mod capacity self).

(** A run of [push] calls. *)
Definition pushes (items : list (Transition Obs)) : M (t Obs) unit :=
  for_each push items.

(** The slots that hold no transition yet still have the zero written by
    [np.zeros]. *)
Definition unused_zero self : Prop :=
  Forall (fun p => p = 0%R) (drop (length (memory self)) (priorities self)).

(** The priorities of the stored transitions are not negative. *)
Definition valid_nonneg self : Prop :=
  Forall (fun p => (0 <= p)%R) (valid_priorities self).

(** The state of the priority array under the use the buffer is meant for:
    no priority is negative, and no slot was written beyond the stored
    transitions. *)
Definition priorities_ok self : Prop :=
  ring self /\
  Forall (fun p => (0 <= p)%R) (priorities self) /\
  unused_zero self.

End WithObs.
End PriortizedReplayBufferSpec.

(** ** [RainbowReplayBuffer] *)

Module RainbowReplayBufferSpec.
Import RainbowReplayBuffer.
Module PS := PriortizedReplayBufferSpec.
Section WithObs.
Context {Obs : Type}.
Implicit Types (self : t Obs) (tr : Transition Obs).

(** The window holds at most [nstep] transitions, and [nstep] is
    positive. *)
Definition window_ok self : Prop :=
  1 <= nstep self /\ len (nstep_buffer self) <= nstep self.

(** The invariant of the n-step buffer: the one of its store and the one
    of its window. *)
Definition ring self : Prop := PS.ring (store self) /\ window_ok self.

(** The window once [tr] is appended. *)
Definition window_after self tr : list (Transition Obs) :=
  deque_append (nstep self) (nstep_buffer self) tr.

(** The entry that decides [next_state] and [done] of the fold: the
    earliest terminal entry of the window, or its last entry when none
    is terminal. *)
Definition deciding_entry (older : list (Transition Obs)) last
  : Transition Obs :=
  match List.find (fun e => done e) older with
  | Some e => e
  | None => last
  end.

(** The transition stored by a [push] that fills the window. *)
Definition folded tr (first : Transition Obs) (info : R * Obs * bool)
  : Transition Obs :=
  mkTransition (state first) (action first) info.1.1 info.1.2 (done tr).

(** A run of [push] calls, each with its [nstep] argument. *)
Definition pushes (items : list (Z * Transition Obs)) : M (t Obs) unit :=
  for_each (fun '(nstep_arg, tr) => push nstep_arg tr) items.

(** The buffer after [n] calls of [push] on a fresh one: the window has
    kept the last [nstep] transitions at most, and the memory has one
    entry for each call from the [nstep]-th on, up to the capacity. *)
Definition after_pushes (n : Z) self : Prop :=
  ring self /\
  len (nstep_buffer self) = Z.min n (nstep self) /\
  __len__ self
    = Z.min (Z.max (n - (nstep self - 1)) 0) (P.capacity (store self)).

End WithObs.
End RainbowReplayBufferSpec.

Module RBS := ReplayBufferSpec.
Module PS := PriortizedReplayBufferSpec.
Module NSS := RainbowReplayBufferSpec.

(** ** Scenarios and sample buffers *)

(** Three pushes of reward 1, the third one terminal. *)
Definition three_step_scenario {Obs : Type} (s1 s2 s3 n1 n2 n3 : Obs)
  (a1 a2 a3 : Z) : M (NS.t Obs) unit :=
  NS.push 3 (mkTransition s1 a1 1%R n1 false) ;;
  NS.push 3 (mkTransition s2 a2 1%R n2 false) ;;
  NS.push 3 (mkTransition s3 a3 1%R n3 true).

(** Two pushes into a window of 2, the first one terminal. *)
Definition early_done_scenario {Obs : Type} (s1 s2 n1 n2 : Obs) (a1 a2 : Z)
  (r1 r2 : R) : M (NS.t Obs) unit :=
  NS.push 2 (mkTransition s1 a1 r1 n1 true) ;;
  NS.push 2 (mkTransition s2 a2 r2 n2 false).

(** A store built by one [push] on a fresh buffer of capacity 4. *)
Definition demo_transition : Transition nat :=
  mkTransition 0%nat 0 1%R 1%nat false.

Definition demo_store : P.t nat :=
  P.mk 4 P.default_alpha P.default_beta P.default_beta_increment_per_sampling
       P.default_epsilon [demo_transition] [1%R; 0%R; 0%R; 0%R] 1.

(** The store of [demo_store] inside an n-step buffer of window 1. *)
Definition demo_nstep : NS.t nat := NS.mk demo_store 1 [demo_transition].

Definition demo_uniform : RB.t nat :=
  RB.mk 4 [Some (RB.mkEntry demo_transition None)] 1.

(** ** Behaviours *)

(** The actions of the transitions [l] are 64-bit signed integers, the
    ones a [torch.long] tensor holds. *)
Definition int64_actions {Obs : Type} (l : list (Transition Obs)) : Prop :=
  Forall (fun t => - 2 ^ 63 <= action t < 2 ^ 63) l.

(** The same of the entries of a uniform buffer. *)
Definition int64_entries {Obs : Type} (b : list (option (RB.Entry Obs)))
  : Prop :=
  Forall (fun o => forall e, o = Some e ->
                             - 2 ^ 63 <= action (RB.transition e) < 2 ^ 63) b.

(** The bases of [np.power] in [sample] are positive: the case in which it
    is the real power [Rpower]. *)
Definition positive_bases {Obs : Type} (self : P.t Obs) : Prop :=
  Forall (fun p => (0 < p + P.epsilon self)%R) (P.valid_priorities self).

(** The largest finite [float32] and the smallest positive normal one. *)
Definition float32_max : R := 340282346638528859811704183484516925440%R.
Definition float32_tiny : R := (/ 85070591730234615865843651857942052864)%R.

(** The stores on which the [float32] computation of the sampling
    distribution neither overflows nor vanishes: [alpha] is in [[0, 1]],
    [epsilon] is a positive normal number, the priorities of the stored
    transitions are not negative, their sums with [epsilon] are finite, and
    the sum of the powers is finite with room for its rounding.  On these
    stores the distribution the code computes is, rounding apart, the
    one computed on real numbers, and [np.random.choice] accepts it. *)
Definition float32_range {Obs : Type} (self : P.t Obs) : Prop :=
  (0 <= P.alpha self <= 1)%R /\
  (float32_tiny <= P.epsilon self)%R /\
  Forall (fun p => (0 <= p)%R /\ (p + P.epsilon self <= float32_max)%R)
         (P.valid_priorities self) /\
  (np_sum (map (fun p => np_power (p + P.epsilon self) (P.alpha self))
               (P.valid_priorities self)) <= float32_max / 2)%R.




(** The slot of an array of [c] entries that an index [idx] of
    [[-c, c)] addresses. *)
Definition addressed_slot (c idx : Z) : nat :=
  Z.to_nat (if idx <? 0 then idx + c else idx).

(** What [update_priorities] does to a store of [c] priority slots, [res]
    being the fields it leaves and its outcome.
    - It raises [IndexError] when one of the indices is outside [[-c, c)]
      and returns when they are all inside.
    - It writes priorities only, and a slot [j] that no index addresses
      (neither as [j] nor, counted from the end, as [j - c]) keeps its
      priority.
    - The pairs are written in order: the [k]-th pair [(idx, p)], when it
      and the pairs before it have their indices inside [[-c, c)], has
      written [p] (a priority that [float32] holds as a finite number)
      into slot [idx], or [idx + c] when [idx] is negative, and the slot
      still holds [p] unless a later index addresses it too.  This holds
      of a call that raises further on as of one that returns. *)
Definition update_effect {Obs : Type} (self : P.t Obs) (indicies : list Z)
  (new_prior : list R) (res : P.t Obs * outcome unit) : Prop :=
  let c := P.capacity self in
  (Exists (fun idx => idx < - c \/ c <= idx) indicies ->
   res.2 = Raise IndexError) /\
  (Forall (fun idx => - c <= idx < c) indicies -> res.2 = Ok tt) /\
  res.1 = P.set_priorities (P.priorities res.1) self /\
  (forall j : nat,
     (forall idx, In idx indicies ->
                  Z.of_nat j <> idx /\ Z.of_nat j <> idx + c) ->
     P.priorities res.1 !! j = P.priorities self !! j) /\
  (forall (k : nat) (idx : Z) (p : R),
     indicies !! k = Some idx -> new_prior !! k = Some p ->
     (Rabs p <= float32_max)%R ->
     Forall (fun i => - c <= i < c) (take (S k) indicies) ->
     (forall (k' : nat) (idx' : Z),
        (k < k')%nat -> indicies !! k' = Some idx' ->
        idx' <> idx /\ idx' <> idx + c /\ idx' <> idx - c) ->
     P.priorities res.1 !! addressed_slot c idx = Some p).

(** The priority [p] that a [push] gives the slot it writes, [self] being
    the store before the call: 1 when the memory is empty; otherwise the
    maximum of the priority array, which is the maximum of the priorities
    of the stored transitions as long as these are not negative and the
    unused slots still hold their initial zero. *)
Definition new_slot_priority {Obs : Type} (self : P.t Obs) (p : R) : Prop :=
  (P.memory self = [] -> p = 1%R) /\
  (P.memory self <> [] -> is_max p (P.priorities self)) /\
  (P.memory self <> [] -> PS.unused_zero self -> PS.valid_nonneg self ->
   is_max p (P.valid_priorities self)).



(** The stores that a series of [sample] calls leaves, one after
    another, whatever their outcomes. *)
Fixpoint sample_run {Obs : Type} (calls : list ((nat -> nat) * Z))
  (self : P.t Obs) : list (P.t Obs) :=
  match calls with
  | [] => []
  | (u, k) :: calls' =>
      let self' := (P.sample u k self).1 in
      self' :: sample_run calls' self'
  end.

(** * Vocabulary of the further properties *)

(** The slot of a ring of [c] slots that the [i]-th write (counted from 0)
    goes to. *)
Definition ring_slot (c : Z) (i : nat) : nat := Z.to_nat (Z.of_nat i mod c).

(** The contents of a ring of [c] slots after the writes [hist], as the
    list [l] of its slots holds them: each of the last [c] writes is found
    in its slot. *)
Definition ring_holds {A : Type} (c : Z) (hist l : list A) : Prop :=
  forall (i : nat) (x : A),
    Z.of_nat (length hist) - c <= Z.of_nat i ->
    hist !! i = Some x ->
    l !! ring_slot c i = Some x.

(** The entry that [ReplayBuffer.push] stores for an item of a run. *)
Definition entry_of {Obs : Type} (item : Transition Obs * option Z)
  : RB.Entry Obs :=
  RB.mkEntry item.1 item.2.

(** The uniform buffer after the pushes [hist]. *)
Definition uniform_after {Obs : Type} (hist : list (Transition Obs * option Z))
  (self : RB.t Obs) : Prop :=
  RBS.ring self /\
  RB.pos self = len hist mod RB.capacity self /\
  exists rows,
    RB.buffer self = map Some rows /\
    len rows = Z.min (len hist) (RB.capacity self) /\
    ring_holds (RB.capacity self) (map entry_of hist) rows.

(** The priority store after the pushes [hist]. *)
Definition priority_after {Obs : Type} (hist : list (Transition Obs))
  (self : P.t Obs) : Prop :=
  PS.ring self /\
  P.pos self = len hist mod P.capacity self /\
  len (P.memory self) = Z.min (len hist) (P.capacity self) /\
  ring_holds (P.capacity self) hist (P.memory self).

(** A store of capacity 4 after two pushes and the update of the priority
    of slot 1 to 2. *)
Definition demo_store2 : P.t nat :=
  P.mk 4 P.default_alpha P.default_beta P.default_beta_increment_per_sampling
       P.default_epsilon [demo_transition; demo_transition]
       [1%R; 2%R; 0%R; 0%R] 2.

(** The entries of a window that count in its fold, [older] being the
    window without its last entry [last]: the entries up to the first
    terminal one of [older], or all of them. *)
Fixpoint horizon {Obs : Type} (older : list (Transition Obs))
  (last : Transition Obs) : list (Transition Obs) :=
  match older with
  | [] => [last]
  | t :: older' => if done t then [t] else t :: horizon older' last
  end.

(** [a^i * r_0 + a^(i+1) * r_1 + ...] for the rewards [rs]. *)
Fixpoint discounted_sum (a : R) (i : nat) (rs : list R) : R :=
  match rs with
  | [] => 0%R
  | r :: rs' => (a ^ i * r + discounted_sum a (S i) rs')%R
  end.

(** The n-step buffer after the pushes [hist]: its invariant, and the
    window as the last [nstep] pushed transitions. *)
Definition window_holds {Obs : Type} (hist : list (Transition Obs))
  (self : NS.t Obs) : Prop :=
  NSS.after_pushes (len hist) self /\
  NS.nstep_buffer self = drop (length hist - Z.to_nat (NS.nstep self)) hist.


(** * Properties *)

(** Evaluation of a method on given fields; the operations on real numbers
    are left as they are written. *)
Ltac py_eval :=
  cbv -[Rplus Rmult Rminus Ropp Rinv Rdiv IZR Rmax Rmin Rpower Rle Rlt].

Ltac py_unfold :=
  unfold bind, get, put, ret, lift, raise.

(** ** Indexing *)

Lemma len_app {A : Type} (l : list A) (x : A) : len (l ++ [x]) = len l + 1.
Proof. unfold len. rewrite length_app. simpl. lia. Qed.

Lemma len_nonneg {A : Type} (l : list A) : 0 <= len l.
Proof. unfold len. lia. Qed.

Lemma py_index_nonneg (n : nat) (i : Z) :
  0 <= i < Z.of_nat n -> py_index n i = Some (Z.to_nat i).
Proof.
  intros H. unfold py_index.
  destruct (0 <=? i) eqn:E1; [|lia].
  destruct (i <? Z.of_nat n) eqn:E2; [reflexivity|lia].
Qed.

Lemma py_index_neg (n : nat) (i : Z) :
  - Z.of_nat n <= i < 0 -> py_index n i = Some (Z.to_nat (i + Z.of_nat n)).
Proof.
  intros H. unfold py_index.
  destruct (0 <=? i) eqn:E1; [lia|]. simpl.
  destruct (- Z.of_nat n <=? i) eqn:E2; [|lia].
  destruct (i <? 0) eqn:E3; [reflexivity|lia].
Qed.

Lemma py_index_out (n : nat) (i : Z) :
  i < - Z.of_nat n \/ Z.of_nat n <= i -> py_index n i = None.
Proof.
  intros H. unfold py_index.
  destruct (0 <=? i) eqn:E1, (i <? Z.of_nat n) eqn:E2,
           (- Z.of_nat n <=? i) eqn:E3, (i <? 0) eqn:E4;
    simpl; try reflexivity; lia.
Qed.

Lemma py_index_Some_lt (n : nat) (i : Z) (j : nat) :
  py_index n i = Some j -> (j < n)%nat.
Proof.
  unfold py_index.
  destruct (0 <=? i) eqn:E1, (i <? Z.of_nat n) eqn:E2,
           (- Z.of_nat n <=? i) eqn:E3, (i <? 0) eqn:E4;
    simpl; intros H; inversion H; lia.
Qed.

Lemma py_index_Some_range (n : nat) (i : Z) (j : nat) :
  py_index n i = Some j -> - Z.of_nat n <= i < Z.of_nat n.
Proof.
  destruct (Z_lt_ge_dec i (- Z.of_nat n)) as [H|H];
    [rewrite py_index_out by lia; discriminate|].
  destruct (Z_lt_ge_dec i (Z.of_nat n)) as [H'|H'];
    [lia|rewrite py_index_out by lia; discriminate].
Qed.

Lemma getitem_nonneg {A : Type} (l : list A) (i : Z) :
  0 <= i < len l -> exists x, getitem l i = Ok x /\ l !! Z.to_nat i = Some x.
Proof.
  intros H. unfold getitem. rewrite py_index_nonneg by exact H.
  destruct (l !! Z.to_nat i) as [x|] eqn:E.
  - exists x. split; reflexivity.
  - apply lookup_ge_None in E. unfold len in H. lia.
Qed.

Lemma setitem_nonneg {A : Type} (l : list A) (i : Z) (x : A) :
  0 <= i < len l -> setitem l i x = Ok (<[Z.to_nat i := x]> l).
Proof.
  intros H. unfold setitem. rewrite py_index_nonneg by exact H. reflexivity.
Qed.

Lemma setitem_length {A : Type} (l l' : list A) (i : Z) (x : A) :
  setitem l i x = Ok l' -> length l' = length l.
Proof.
  unfold setitem. destruct (py_index (length l) i); intros H; inversion H.
  apply length_insert.
Qed.

Lemma map_outcome_Ok {A B : Type} (f : A -> outcome B) (l : list A) :
  Forall (fun x => exists y, f x = Ok y) l ->
  exists ys, map_outcome f l = Ok ys /\ length ys = length l.
Proof.
  induction 1 as [|x l [y Hy] _ [ys [IH Hlen]]]; simpl.
  - exists []. split; reflexivity.
  - rewrite Hy, IH. exists (y :: ys). split; [reflexivity|simpl; congruence].
Qed.

Lemma map_outcome_length {A B : Type} (f : A -> outcome B) (l : list A)
  (ys : list B) :
  map_outcome f l = Ok ys -> length ys = length l.
Proof.
  revert ys. induction l as [|x l IH]; simpl; intros ys H.
  - inversion H. reflexivity.
  - destruct (f x); [|discriminate].
    destruct (map_outcome f l) as [zs|]; [|discriminate].
    inversion H. simpl. f_equal. apply IH. reflexivity.
Qed.

(** ** Tensors of integers *)

Lemma in_int64_range (z : Z) :
  in_int64 z = true <-> - 2 ^ 63 <= z < 2 ^ 63.
Proof.
  unfold in_int64, int64_bound. rewrite andb_true_iff, Z.leb_le, Z.ltb_lt.
  reflexivity.
Qed.

Lemma torch_tensor_long_Ok (xs ys : list Z) :
  torch_tensor_long xs = Ok ys ->
  ys = xs /\ Forall (fun z => - 2 ^ 63 <= z < 2 ^ 63) xs.
Proof.
  unfold torch_tensor_long. destruct (forallb in_int64 xs) eqn:E;
    [|discriminate].
  intros H. injection H as <-. split; [reflexivity|].
  apply Forall_forall. intros z Hz. apply in_int64_range.
  rewrite forallb_forall in E. apply E, list_elem_of_In. exact Hz.
Qed.

Lemma torch_tensor_long_in_range (xs : list Z) :
  Forall (fun z => - 2 ^ 63 <= z < 2 ^ 63) xs -> torch_tensor_long xs = Ok xs.
Proof.
  intros H. unfold torch_tensor_long.
  replace (forallb in_int64 xs) with true; [reflexivity|].
  symmetry. apply forallb_forall. intros z Hz. apply in_int64_range.
  rewrite Forall_forall in H. apply H, list_elem_of_In. exact Hz.
Qed.

Lemma getitem_elem_of {A : Type} (l : list A) (i : Z) (x : A) :
  getitem l i = Ok x -> x ∈ l.
Proof.
  unfold getitem. destruct (py_index (length l) i) as [j|]; [|discriminate].
  destruct (l !! j) as [y|] eqn:E; [|discriminate].
  intros H. injection H as <-. eapply list_elem_of_lookup_2. exact E.
Qed.

Lemma map_outcome_Forall {A B : Type} (f : A -> outcome B) (Q : B -> Prop)
  (l : list A) (ys : list B) :
  (forall x y, f x = Ok y -> Q y) ->
  map_outcome f l = Ok ys -> Forall Q ys.
Proof.
  intros Hf. revert ys. induction l as [|x l IH]; simpl; intros ys H.
  - injection H as <-. constructor.
  - destruct (f x) as [y|] eqn:E; [|discriminate].
    destruct (map_outcome f l) as [zs|]; [|discriminate].
    injection H as <-. constructor; [eapply Hf; exact E|].
    apply IH. reflexivity.
Qed.

(** ** The maximum of an array *)

Lemma fold_left_Rmax_ge (xs : list R) (x : R) :
  (x <= fold_left Rmax xs x)%R /\
  Forall (fun y => (y <= fold_left Rmax xs x)%R) xs.
Proof.
  revert x. induction xs as [|y xs IH]; intros x; simpl.
  - split; [lra|constructor].
  - destruct (IH (Rmax x y)) as [H1 H2]. split.
    + pose proof (Rmax_l x y). lra.
    + constructor; [|exact H2]. pose proof (Rmax_r x y). lra.
Qed.

Lemma fold_left_Rmax_In (xs : list R) (x : R) :
  In (fold_left Rmax xs x) (x :: xs).
Proof.
  revert x. induction xs as [|y xs IH]; intros x; simpl.
  - left. reflexivity.
  - destruct (IH (Rmax x y)) as [H|H].
    + unfold Rmax in H at 1. destruct (Rle_dec x y); auto.
    + right. right. exact H.
Qed.

Lemma np_max_is_max (a : list R) (m : R) : np_max a = Ok m -> is_max m a.
Proof.
  destruct a as [|x xs]; simpl; intros H; inversion H.
  split.
  - apply fold_left_Rmax_In.
  - destruct (fold_left_Rmax_ge xs x). constructor; assumption.
Qed.

Lemma np_max_nonempty (a : list R) : a <> [] -> exists m, np_max a = Ok m.
Proof. destruct a; [congruence|]. intros _. eexists. reflexivity. Qed.

Lemma is_max_unique (m m' : R) (a : list R) :
  is_max m a -> is_max m' a -> m = m'.
Proof.
  intros [H1 H2] [H3 H4]. rewrite Forall_forall in H2, H4.
  apply list_elem_of_In in H1, H3.
  pose proof (H2 _ H3). pose proof (H4 _ H1). lra.
Qed.

(** ** [ReplayBuffer] *)

Module ReplayBufferFacts.
Import ReplayBuffer ReplayBufferSpec.
Section WithObs.
Context {Obs : Type}.
Implicit Types (self : t Obs) (tr : Transition Obs).

Lemma uniform_ring_init (c : Z) self : 0 < c -> __init__ c = Ok self -> ring self.
Proof.
  intros Hc H. inversion H. unfold ring, len. simpl. lia.
Qed.

Lemma uniform_push_ring self tr na :
  ring self ->
  exists self',
    push tr na self = (self', Ok tt) /\ ring self' /\
    capacity self' = capacity self /\
    __len__ self' = Z.min (__len__ self + 1) (capacity self).
Proof.
  intros (Hc & Hle & Hpos & Hrange).
  unfold push, __len__. py_unfold.
  destruct (len (buffer self) <? capacity self) eqn:E.
  - apply Z.ltb_lt in E. specialize (Hpos E). simpl.
    rewrite setitem_nonneg by (rewrite len_app; lia).
    unfold py_mod. simpl.
    destruct (capacity self =? 0) eqn:E0; [lia|].
    eexists. split; [reflexivity|].
    unfold ring, len in *. simpl. rewrite length_insert, length_app. simpl.
    repeat split; try lia.
    + intros Hlt. rewrite Hpos.
      rewrite Z.mod_small by lia. lia.
    + apply Z.mod_pos_bound. lia.
    + apply Z.mod_pos_bound. lia.
  - apply Z.ltb_ge in E. simpl.
    rewrite setitem_nonneg by lia.
    unfold py_mod. simpl.
    destruct (capacity self =? 0) eqn:E0; [lia|].
    eexists. split; [reflexivity|].
    unfold ring, len in *. simpl. rewrite length_insert.
    repeat split; try lia.
    + apply Z.mod_pos_bound. lia.
    + apply Z.mod_pos_bound. lia.
Qed.

Lemma uniform_pushes_ring (items : list (Transition Obs * option Z)) self :
  ring self ->
  exists self',
    pushes items self = (self', Ok tt) /\ ring self' /\
    capacity self' = capacity self /\
    __len__ self' = Z.min (__len__ self + len items) (capacity self).
Proof.
  revert self. induction items as [|[tr na] items IH]; intros self Hr.
  - exists self. unfold pushes, len. simpl. unfold ret.
    destruct Hr as (? & ? & ? & ?). unfold __len__.
    repeat split; try assumption; lia.
  - destruct (uniform_push_ring self tr na Hr) as (s1 & E1 & R1 & C1 & L1).
    destruct (IH s1 R1) as (s2 & E2 & R2 & C2 & L2).
    exists s2. unfold pushes in *. simpl. unfold bind at 1. rewrite E1.
    split; [exact E2|]. split; [exact R2|]. split; [congruence|].
    rewrite L2, L1, C1. unfold len. simpl length.
    destruct Hr as (? & ? & ? & ?). unfold __len__, len in *. lia.
Qed.


Lemma draw_distinct_map {A B : Type} (g : A -> B) (u : nat -> nat)
  (k j : nat) (pool : list A) :
  draw_distinct u j (map g pool) k = map g (draw_distinct u j pool k).
Proof.
  revert j pool. induction k as [|k IH]; intros j pool; simpl; [reflexivity|].
  rewrite length_map, list_lookup_fmap.
  destruct (pool !! (u j mod length pool)%nat) as [x|]; simpl; [|reflexivity].
  f_equal. unfold remove_at.
  rewrite <- IH. f_equal.
  change (map g) with (fmap (M:=list) g).
  rewrite fmap_app, fmap_take, fmap_drop. reflexivity.
Qed.

Lemma zip_star_next_actions (f : option Z -> option Z)
  (batch : list (option (Entry Obs))) (cols : Columns Obs) :
  zip_star batch = Ok cols ->
  exists cols',
    zip_star (map (option_map (fun e => mkEntry (transition e) (f (next_action e))))
                  batch) = Ok cols' /\
    col_states cols' = col_states cols /\
    col_actions cols' = col_actions cols /\
    col_rewards cols' = col_rewards cols /\
    col_next_states cols' = col_next_states cols /\
    col_dones cols' = col_dones cols.
Proof.
  unfold zip_star.
  set (unpack := fun o : option (Entry Obs) =>
                   match o with Some e => Ok e | None => Raise TypeError end).
  set (g := fun e => mkEntry (transition e) (f (next_action e))).
  assert (Hmap : forall b rows, map_outcome unpack b = Ok rows ->
            map_outcome unpack (map (option_map g) b) = Ok (map g rows)).
  { induction b as [|o b IH]; simpl; intros rows H.
    - inversion H. reflexivity.
    - destruct o as [e|]; simpl in *; [|discriminate].
      destruct (map_outcome unpack b) as [rs|]; [|discriminate].
      inversion H. rewrite (IH rs eq_refl). reflexivity. }
  destruct (map_outcome unpack batch) as [rows|] eqn:E; [|discriminate].
  rewrite (Hmap _ _ E).
  destruct rows as [|r rows]; [discriminate|]. intros H. inversion H.
  eexists. split; [reflexivity|]. simpl.
  rewrite !map_map. simpl. repeat split; reflexivity.
Qed.

End WithObs.
End ReplayBufferFacts.

(** ** [PriortizedReplayBuffer] *)

Module PriortizedReplayBufferFacts.
Import PriortizedReplayBuffer PriortizedReplayBufferSpec.
Section WithObs.
Context {Obs : Type}.
Implicit Types (self : t Obs) (data : Transition Obs).

Lemma priority_ring_init (c : Z) (a b i e : R) self :
  0 < c -> __init__ c a b i e = Ok self -> ring self.
Proof.
  intros Hc. unfold __init__, np_zeros.
  destruct (c <? 0) eqn:E; [lia|]. intros H. inversion H.
  unfold ring, len. simpl. rewrite length_replicate. lia.
Qed.

Lemma priority_push_ring self data :
  ring self ->
  exists max_prior,
    push data self = (pushed data max_prior self, Ok tt) /\
    match memory self with
    | [] => max_prior = 1%R
    | _ :: _ => np_max (priorities self) = Ok max_prior
    end.
Proof.
  intros (Hc & Hp & Hle & Hpos & Hrange).
  assert (Hmax : exists mp, match memory self with
                            | [] => mp = 1%R
                            | _ :: _ => np_max (priorities self) = Ok mp
                            end).
  { destruct (memory self); [eexists; reflexivity|].
    apply np_max_nonempty. intros E. rewrite E in Hp. unfold len in Hp.
    simpl in Hp. lia. }
  destruct Hmax as [mp Hmp]. exists mp. split; [|exact Hmp].
  unfold push, pushed. py_unfold.
  destruct (memory self) as [|x m] eqn:Em.
  - subst mp. simpl.
    destruct (len [] <? capacity self) eqn:E;
      [|apply Z.ltb_ge in E; unfold len in E; simpl in E; lia].
    simpl. rewrite setitem_nonneg by lia.
    unfold py_mod. destruct (capacity self =? 0) eqn:E0; [lia|].
    simpl. rewrite ?Em. reflexivity.
  - rewrite Hmp. simpl.
    destruct (len (x :: m) <? capacity self) eqn:E; simpl.
    + rewrite setitem_nonneg by lia.
      unfold py_mod. destruct (capacity self =? 0) eqn:E0; [lia|].
      simpl. rewrite ?Em. reflexivity.
    + apply Z.ltb_ge in E.
      rewrite setitem_nonneg by lia. simpl.
      rewrite setitem_nonneg by lia.
      unfold py_mod. destruct (capacity self =? 0) eqn:E0; [lia|].
      simpl. rewrite ?Em. reflexivity.
Qed.

Lemma pushed_len self data (mp : R) :
  ring self ->
  __len__ (pushed data mp self) = Z.min (__len__ self + 1) (capacity self).
Proof.
  intros (Hc & Hp & Hle & Hpos & Hrange). unfold __len__, pushed. simpl.
  destruct (len (memory self) <? capacity self) eqn:E.
  - apply Z.ltb_lt in E. rewrite len_app. lia.
  - apply Z.ltb_ge in E. unfold len in *. rewrite length_insert. lia.
Qed.

Lemma pushed_ring self data (mp : R) :
  ring self -> ring (pushed data mp self).
Proof.
  intros Hr. pose proof (pushed_len self data mp Hr) as Hl.
  destruct Hr as (Hc & Hp & Hle & Hpos & Hrange).
  unfold __len__ in Hl. unfold ring. simpl capacity. simpl priorities.
  simpl pos. rewrite Hl. unfold len in *. rewrite length_insert.
  pose proof (Z.mod_pos_bound (pos self + 1) (capacity self) Hc).
  repeat split; try lia.
  intros Hlt. rewrite Hpos by lia. rewrite Z.mod_small by lia. lia.
Qed.

(** The priority written by [push] is found in the slot the cursor
    pointed to. *)
Lemma pushed_priority self data (mp : R) :
  ring self ->
  priorities (pushed data mp self) !! Z.to_nat (pos self) = Some mp.
Proof.
  intros (Hc & Hp & Hle & Hpos & Hrange). simpl.
  apply list_lookup_insert_eq. unfold len in Hp. lia.
Qed.

Lemma priority_pushes_ring (items : list (Transition Obs)) self :
  ring self ->
  exists self',
    pushes items self = (self', Ok tt) /\ ring self' /\
    capacity self' = capacity self /\
    __len__ self' = Z.min (__len__ self + len items) (capacity self).
Proof.
  revert self. induction items as [|data items IH]; intros self Hr.
  - exists self. unfold pushes, len. simpl. unfold ret.
    destruct Hr as (? & ? & ? & ?). unfold __len__.
    repeat split; try assumption; lia.
  - destruct (priority_push_ring self data Hr) as (mp & E1 & _).
    pose proof (pushed_ring self data mp Hr) as R1.
    pose proof (pushed_len self data mp Hr) as L1.
    destruct (IH _ R1) as (s2 & E2 & R2 & C2 & L2).
    exists s2. unfold pushes in *. simpl. unfold bind at 1. rewrite E1.
    split; [exact E2|]. split; [exact R2|]. split; [exact C2|].
    rewrite L2, L1. simpl capacity. unfold len. simpl length.
    destruct Hr as (? & ? & ? & ?). unfold __len__, len in *. lia.
Qed.

(** *** [sample] *)

(** What a call of [sample] leaves and returns: a call that raises leaves
    the fields as they were; a call that returns has moved [beta] and
    returns the drawn indices and their weights divided by the largest. *)
Lemma sample_spec (u : nat -> nat) (batch_size : Z) self :
  match sample u batch_size self with
  | (self', Raise e) => self' = self
  | (self', Ok batch) =>
      self' = set_beta (Rmin 1 (beta self + beta_increment self)) self /\
      exists samples raw wmax,
        np_random_choice u (len (memory self)) batch_size (sampling_probs self)
          = Ok (indices batch) /\
        map_outcome (getitem (memory self)) (indices batch) = Ok samples /\
        samples <> [] /\
        raw_weights self (sampling_probs self) (indices batch) = Ok raw /\
        np_max raw = Ok wmax /\
        weights batch = map (fun w => (w / wmax)%R) raw /\
        states batch = map state samples /\
        actions batch = map action samples /\
        rewards batch = map reward samples /\
        next_states batch = map next_state samples /\
        dones batch = map (fun s => float_of_bool (done s)) samples
  end.
Proof.
  unfold sample. py_unfold.
  destruct (np_random_choice u (len (memory self)) batch_size
              (sampling_probs self)) as [idx|] eqn:E1; [|reflexivity].
  destruct (map_outcome (getitem (memory self)) idx) as [smp|] eqn:E2;
    [|reflexivity].
  destruct smp as [|s0 smp]; [reflexivity|].
  destruct (torch_tensor_long (map action (s0 :: smp))) as [acts|] eqn:E5;
    [|reflexivity].
  destruct (raw_weights self (sampling_probs self) idx) as [raw|] eqn:E3;
    [|reflexivity].
  destruct (np_max raw) as [wmax|] eqn:E4; [|reflexivity].
  split; [reflexivity|].
  exists (s0 :: smp), raw, wmax.
  apply torch_tensor_long_Ok in E5. destruct E5 as [-> _]. simpl.
  repeat split; try assumption; try reflexivity. discriminate.
Qed.

Lemma valid_priorities_len self :
  ring self -> len (valid_priorities self) = len (memory self).
Proof.
  intros (Hc & Hp & Hle & Hpos & Hrange). unfold valid_priorities.
  destruct (len (memory self) =? capacity self) eqn:E.
  - apply Z.eqb_eq in E. lia.
  - apply Z.eqb_neq in E. unfold slice_to.
    destruct (0 <=? pos self) eqn:E0; [|lia].
    unfold len in *. rewrite length_take. lia.
Qed.

Lemma sampling_probs_len self :
  ring self -> len (sampling_probs self) = len (memory self).
Proof.
  intros Hr. rewrite <- (valid_priorities_len self Hr).
  unfold sampling_probs, len. rewrite !length_map. reflexivity.
Qed.

Lemma choice_in_range (u : nat -> nat) (n size : Z) (p : list R)
  (idx : list Z) :
  np_random_choice u n size p = Ok idx ->
  Forall (fun i => 0 <= i < n) idx /\ len p = n /\
  0 <= size /\ len idx = size.
Proof.
  unfold np_random_choice.
  destruct (n <=? 0) eqn:E1; [discriminate|].
  destruct (len p =? n) eqn:E2; simpl; [|discriminate].
  destruct (size <? 0) eqn:E3; [discriminate|].
  intros H. inversion H. apply Z.leb_gt in E1. apply Z.eqb_eq in E2.
  apply Z.ltb_ge in E3. repeat split; try lia.
  - apply Forall_forall. intros i Hi.
    apply list_elem_of_In, in_map_iff in Hi. destruct Hi as (j & <- & _).
    apply Z.mod_pos_bound. lia.
  - unfold len. rewrite length_map, length_seq. lia.
Qed.

(** With a transition in memory and actions that fit a [torch.long]
    tensor, a call for a positive number of items returns that number of
    items, whatever the number stored. *)
Lemma sample_ok (u : nat -> nat) (batch_size : Z) self :
  ring self -> 0 < len (memory self) -> 0 < batch_size ->
  int64_actions (memory self) ->
  exists batch,
    sample u batch_size self
      = (set_beta (Rmin 1 (beta self + beta_increment self)) self, Ok batch) /\
    len (indices batch) = batch_size /\
    len (states batch) = batch_size /\
    len (actions batch) = batch_size /\
    len (rewards batch) = batch_size /\
    len (next_states batch) = batch_size /\
    len (dones batch) = batch_size /\
    len (weights batch) = batch_size.
Proof.
  intros Hr Hm Hk Hact.
  pose proof (sampling_probs_len self Hr) as Hpl.
  pose proof (sample_spec u batch_size self) as Hs.
  assert (Hc : exists idx, np_random_choice u (len (memory self)) batch_size
                             (sampling_probs self) = Ok idx).
  { unfold np_random_choice.
    destruct (len (memory self) <=? 0) eqn:E1; [lia|].
    rewrite Hpl, Z.eqb_refl. simpl.
    destruct (batch_size <? 0) eqn:E3; [lia|]. eexists. reflexivity. }
  destruct Hc as [idx Hc].
  destruct (choice_in_range _ _ _ _ _ Hc) as (Hin & _ & _ & Hlen).
  assert (Hg : exists smp, map_outcome (getitem (memory self)) idx = Ok smp /\
                           length smp = length idx).
  { apply map_outcome_Ok. eapply Forall_impl; [exact Hin|].
    intros i Hi. simpl in Hi.
    destruct (getitem_nonneg (memory self) i Hi) as (x & Hx & _). eauto. }
  destruct Hg as (smp & Hg & Hgl).
  assert (Hw : exists raw, raw_weights self (sampling_probs self) idx = Ok raw /\
                           length raw = length idx).
  { unfold raw_weights.
    destruct (map_outcome_Ok (np_getitem (sampling_probs self)) idx)
      as (picked & Hpk & Hpkl).
    { eapply Forall_impl; [exact Hin|]. intros i Hi. simpl in Hi.
      unfold np_getitem.
      destruct (getitem_nonneg (sampling_probs self) i) as (x & Hx & _);
        [lia|eauto]. }
    rewrite Hpk. eexists. split; [reflexivity|].
    rewrite length_map. exact Hpkl. }
  destruct Hw as (raw & Hw & Hwl).
  assert (Hne : raw <> []).
  { intros ->. simpl in Hwl. unfold len in Hlen. lia. }
  destruct (np_max_nonempty raw Hne) as [wmax Hmax].
  unfold sample in *. revert Hs. py_unfold. rewrite Hc, Hg.
  destruct smp as [|s0 smp]; [simpl in Hgl; unfold len in Hlen; lia|].
  rewrite torch_tensor_long_in_range.
  2:{ apply Forall_map.
      apply (map_outcome_Forall _ (fun t => t ∈ memory self)) in Hg;
        [|intros i t; apply getitem_elem_of].
      unfold int64_actions in Hact. rewrite Forall_forall in Hact.
      eapply Forall_impl; [exact Hg|]. intros t Ht. apply Hact. exact Ht. }
  rewrite Hw, Hmax. intros _.
  eexists. split; [reflexivity|]. unfold len in *. simpl.
  unfold torch_stack, torch_tensor_float.
  rewrite !length_map. simpl in Hgl. repeat split; lia.
Qed.


(** The weights of a returned batch: none exceeds 1, and 1 is among
    them. *)
Lemma sample_weights (u : nat -> nat) (batch_size : Z) self self'
  (batch : Batch Obs) :
  sample u batch_size self = (self', Ok batch) ->
  is_max 1%R (weights batch).
Proof.
  intros H. pose proof (sample_spec u batch_size self) as Hs.
  rewrite H in Hs.
  destruct Hs as (_ & smp & raw & wmax & _ & _ & _ & Hraw & Hmax & Hw & _).
  rewrite Hw. apply np_max_is_max in Hmax. destruct Hmax as [Hin Hall].
  assert (Hpos : (0 < wmax)%R).
  { unfold raw_weights in Hraw.
    destruct (map_outcome _ _) as [picked|]; [|discriminate].
    inversion Hraw as [Hr]. rewrite <- Hr in Hin.
    apply in_map_iff in Hin. destruct Hin as (p & <- & _).
    unfold np_power, Rpower. apply exp_pos. }
  split.
  - apply in_map_iff. exists wmax. split; [field; lra|exact Hin].
  - apply Forall_map. eapply Forall_impl; [exact Hall|].
    intros w Hle. simpl in *.
    apply (Rmult_le_reg_r wmax); [exact Hpos|].
    unfold Rdiv. rewrite Rmult_assoc, Rinv_l by lra. lra.
Qed.

(** [beta] over a call of [sample]. *)
Lemma sample_beta (u : nat -> nat) (batch_size : Z) self :
  (0 <= beta_increment self)%R -> (beta self <= 1)%R ->
  let self' := (sample u batch_size self).1 in
  (beta self <= beta self')%R /\ (beta self' <= 1)%R /\
  beta_increment self' = beta_increment self /\
  (forall batch, (sample u batch_size self).2 = Ok batch ->
     beta self' = Rmin 1 (beta self + beta_increment self)).
Proof.
  intros Hi Hb. pose proof (sample_spec u batch_size self) as Hs.
  destruct (sample u batch_size self) as [s' [batch|e]]; simpl.
  - destruct Hs as [-> _]. simpl.
    repeat split; try reflexivity.
    + unfold Rmin. destruct (Rle_dec _ _); lra.
    + apply Rmin_l.
  - subst s'. repeat split; try lra. intros batch H. discriminate.
Qed.

(** *** [update_priorities] *)

Lemma set_priorities_id self : self = set_priorities (priorities self) self.
Proof. destruct self. reflexivity. Qed.

(** Whatever its outcome, a call writes priorities only, keeps the size
    of the array and leaves alone every slot that none of the given
    indices addresses. *)
Lemma update_priorities_frame (indicies : list Z) (new_prior : list R)
  self self' (o : outcome unit) :
  update_priorities indicies new_prior self = (self', o) ->
  self' = set_priorities (priorities self') self /\
  length (priorities self') = length (priorities self) /\
  forall j : nat,
    (forall idx, In idx indicies ->
                 py_index (length (priorities self)) idx <> Some j) ->
    priorities self' !! j = priorities self !! j.
Proof.
  unfold update_priorities.
  revert new_prior self. induction indicies as [|idx indicies IH];
    intros new_prior self H.
  - simpl in H. inversion H; subst.
    split; [apply set_priorities_id|]. split; reflexivity.
  - destruct new_prior as [|prior new_prior].
    + simpl in H. inversion H; subst.
      split; [apply set_priorities_id|]. split; reflexivity.
    + simpl in H. revert H. py_unfold. unfold setitem.
      destruct (py_index (length (priorities self)) idx) as [k|] eqn:Ek.
      * intros H. apply IH in H. simpl in H.
        rewrite length_insert in H. destruct H as (H1 & H2 & H3).
        split; [rewrite H1 at 1; reflexivity|]. split; [exact H2|].
        intros j Hj. rewrite H3.
        -- apply list_lookup_insert_ne. intros ->.
           apply (Hj idx); [left; reflexivity|exact Ek].
        -- intros i Hi. apply Hj. right. exact Hi.
      * intros H. inversion H; subst.
        split; [apply set_priorities_id|]. split; reflexivity.
Qed.

(** An index outside [[-n, n)], [n] the size of the array, makes the
    call raise [IndexError]. *)
Lemma update_priorities_raises (indicies : list Z) (new_prior : list R) self :
  (length indicies <= length new_prior)%nat ->
  Exists (fun idx => idx < - len (priorities self) \/
                     len (priorities self) <= idx) indicies ->
  exists self', update_priorities indicies new_prior self
                = (self', Raise IndexError).
Proof.
  unfold update_priorities.
  revert new_prior self. induction indicies as [|idx indicies IH];
    intros new_prior self Hlen Hex.
  - inversion Hex.
  - destruct new_prior as [|prior new_prior]; [simpl in Hlen; lia|].
    simpl. py_unfold. unfold setitem.
    destruct (py_index (length (priorities self)) idx) as [k|] eqn:Ek.
    + apply Exists_cons in Hex. destruct Hex as [Hbad|Hex].
      * rewrite py_index_out in Ek by exact Hbad. discriminate.
      * apply IH; [simpl in Hlen; lia|].
        simpl. unfold len in *. rewrite length_insert. exact Hex.
    + eexists. reflexivity.
Qed.

(** Indices within [[-n, n)] are all accepted. *)
Lemma update_priorities_returns (indicies : list Z) (new_prior : list R) self :
  Forall (fun idx => - len (priorities self) <= idx < len (priorities self))
         indicies ->
  exists self', update_priorities indicies new_prior self = (self', Ok tt).
Proof.
  unfold update_priorities.
  revert new_prior self. induction indicies as [|idx indicies IH];
    intros new_prior self Hall.
  - eexists. reflexivity.
  - destruct new_prior as [|prior new_prior]; [eexists; reflexivity|].
    apply Forall_cons in Hall. destruct Hall as [Hidx Hall].
    simpl. py_unfold. unfold setitem.
    destruct (py_index (length (priorities self)) idx) as [k|] eqn:Ek.
    + apply IH. simpl. unfold len in *. rewrite length_insert. exact Hall.
    + exfalso. unfold len in Hidx. destruct (Z_lt_ge_dec idx 0).
      * rewrite py_index_neg in Ek by lia. discriminate.
      * rewrite py_index_nonneg in Ek by lia. discriminate.
Qed.

(** *** [__init__] *)


Lemma priority_init_nonneg (c : Z) (a b i e : R) :
  0 <= c ->
  __init__ (Obs:=Obs) c a b i e
    = Ok (mk c a b i e [] (replicate (Z.to_nat c) 0%R) 0).
Proof.
  intros H. unfold __init__, np_zeros.
  destruct (c <? 0) eqn:E; [lia|reflexivity].
Qed.

(** A store of capacity zero is built, and its first [push] raises. *)
Lemma push_capacity_zero (a b i e : R) data :
  exists self self',
    __init__ 0 a b i e = Ok self /\ push data self = (self', Raise IndexError).
Proof. eexists. eexists. split; reflexivity. Qed.

(** *** The priority of a new slot and the valid priorities *)

Lemma valid_priorities_take self :
  ring self ->
  valid_priorities self = take (length (memory self)) (priorities self).
Proof.
  intros (Hc & Hp & Hle & Hpos & Hrange). unfold valid_priorities.
  destruct (len (memory self) =? capacity self) eqn:E.
  - apply Z.eqb_eq in E. rewrite take_ge; [reflexivity|].
    unfold len in *. lia.
  - apply Z.eqb_neq in E. unfold slice_to.
    destruct (0 <=? pos self) eqn:E0; [|lia].
    rewrite Hpos by lia. unfold len. rewrite Nat2Z.id. reflexivity.
Qed.

Lemma is_max_valid self (m : R) :
  ring self -> memory self <> [] -> unused_zero self -> valid_nonneg self ->
  is_max m (priorities self) -> is_max m (valid_priorities self).
Proof.
  intros Hr Hne Hz Hnn [Hin Hall]. unfold valid_nonneg in Hnn.
  rewrite (valid_priorities_take self Hr) in *.
  unfold unused_zero in Hz.
  destruct Hr as (Hc & Hp & Hle & _).
  set (n := length (memory self)) in *.
  assert (Hsplit : priorities self = take n (priorities self)
                                     ++ drop n (priorities self))
    by (symmetry; apply take_drop).
  assert (Hall' : Forall (fun x => (x <= m)%R) (take n (priorities self))).
  { rewrite Hsplit in Hall. apply Forall_app in Hall. tauto. }
  split; [|exact Hall'].
  rewrite Hsplit in Hin. apply in_app_iff in Hin. destruct Hin as [Hin|Hin];
    [exact Hin|].
  rewrite Forall_forall in Hz. apply list_elem_of_In in Hin.
  specialize (Hz _ Hin). subst m.
  destruct (take n (priorities self)) as [|x xs] eqn:Et.
  - exfalso. apply (f_equal length) in Et. rewrite length_take in Et.
    simpl in Et. unfold len in *.
    assert (n <> 0)%nat by (subst n; destruct (memory self); simpl; congruence).
    lia.
  - apply Forall_cons in Hnn, Hall'. left. lra.
Qed.

(** *** The priority array under pushes and updates of stored slots *)

Lemma priorities_ok_valid_nonneg self : priorities_ok self -> valid_nonneg self.
Proof.
  intros (Hr & Hnn & _). unfold valid_nonneg.
  rewrite (valid_priorities_take self Hr). apply Forall_take. exact Hnn.
Qed.

Lemma init_priorities_ok (c : Z) (a b i e : R) self :
  0 < c -> __init__ c a b i e = Ok self -> priorities_ok self.
Proof.
  intros Hc H. split; [exact (priority_ring_init c a b i e self Hc H)|].
  rewrite priority_init_nonneg in H by lia. inversion H.
  unfold unused_zero. simpl. split.
  - apply Forall_replicate. lra.
  - apply Forall_replicate. reflexivity.
Qed.

Lemma pushed_priorities_ok self data (mp : R) :
  priorities_ok self ->
  match memory self with
  | [] => mp = 1%R
  | _ :: _ => np_max (priorities self) = Ok mp
  end ->
  priorities_ok (pushed data mp self).
Proof.
  intros (Hr & Hnn & Hz) Hmp.
  split; [apply pushed_ring; exact Hr|].
  assert (Hpos : (0 <= mp)%R).
  { destruct (memory self); [lra|].
    apply np_max_is_max in Hmp. destruct Hmp as [Hin _].
    rewrite Forall_forall in Hnn. apply Hnn, list_elem_of_In. exact Hin. }
  destruct Hr as (Hc & Hp & Hle & Hcur & Hrange).
  unfold unused_zero in *. simpl. split.
  - apply Forall_insert; assumption.
  - destruct (len (memory self) <? capacity self) eqn:E.
    + apply Z.ltb_lt in E. rewrite Hcur by exact E.
      unfold len. rewrite Nat2Z.id, length_app. simpl.
      rewrite drop_insert_lt by lia.
      rewrite <- drop_drop. apply Forall_drop. exact Hz.
    + apply Z.ltb_ge in E. rewrite drop_ge; [constructor|].
      unfold len in *. rewrite !length_insert. lia.
Qed.

Lemma pushes_priorities_ok (items : list (Transition Obs)) self :
  priorities_ok self ->
  exists self', pushes items self = (self', Ok tt) /\ priorities_ok self'.
Proof.
  revert self. induction items as [|data items IH]; intros self Hok.
  - exists self. split; [reflexivity|exact Hok].
  - destruct (priority_push_ring self data (proj1 Hok)) as (mp & E1 & Hmp).
    destruct (IH _ (pushed_priorities_ok self data mp Hok Hmp)) as (s2 & E2 & H2).
    exists s2. unfold pushes in *. simpl. unfold bind at 1. rewrite E1.
    split; [exact E2|exact H2].
Qed.

Lemma update_priorities_Forall (Q : R -> Prop) (indicies : list Z)
  (new_prior : list R) self self' (o : outcome unit) :
  Forall Q (priorities self) -> Forall Q new_prior ->
  update_priorities indicies new_prior self = (self', o) ->
  Forall Q (priorities self').
Proof.
  unfold update_priorities.
  revert new_prior self. induction indicies as [|idx indicies IH];
    intros new_prior self Hq Hn H.
  - simpl in H. inversion H; subst. exact Hq.
  - destruct new_prior as [|prior new_prior].
    + simpl in H. inversion H; subst. exact Hq.
    + apply Forall_cons in Hn. destruct Hn as [Hprior Hn].
      simpl in H. revert H. py_unfold. unfold setitem.
      destruct (py_index (length (priorities self)) idx) as [k|].
      * intros H. apply IH in H; [exact H| |exact Hn].
        simpl. apply Forall_insert; assumption.
      * intros H. inversion H; subst. exact Hq.
Qed.

(** Updates of the slots of stored transitions with priorities that are
    not negative keep the array in that state. *)
Lemma update_priorities_priorities_ok (indicies : list Z) (new_prior : list R)
  self self' (o : outcome unit) :
  priorities_ok self ->
  Forall (fun idx => 0 <= idx < len (memory self)) indicies ->
  Forall (fun p => (0 <= p)%R) new_prior ->
  update_priorities indicies new_prior self = (self', o) ->
  priorities_ok self'.
Proof.
  intros (Hr & Hnn & Hz) Hidx Hnew H.
  pose proof (update_priorities_Forall _ _ _ _ _ _ Hnn Hnew H) as Hnn'.
  destruct (update_priorities_frame _ _ _ _ _ H) as (Hs & Hlen & Hframe).
  assert (Hm : memory self' = memory self) by (rewrite Hs; reflexivity).
  split; [|split; [exact Hnn'|]].
  - destruct Hr as (Hc & Hp & Hle & Hcur & Hrange).
    rewrite Hs. unfold ring, len in *. simpl. rewrite Hlen.
    repeat split; try assumption; lia.
  - unfold unused_zero in *. rewrite Hm.
    apply Forall_lookup. intros j x Hj. rewrite lookup_drop in Hj.
    rewrite Hframe in Hj.
    + rewrite Forall_lookup in Hz. apply (Hz j). rewrite lookup_drop. exact Hj.
    + intros idx Hin Hk. rewrite Forall_forall in Hidx.
      apply list_elem_of_In in Hin. specialize (Hidx _ Hin).
      rewrite py_index_nonneg in Hk.
      * inversion Hk. unfold len in Hidx. lia.
      * destruct Hr as (Hc & Hp & Hle & _). unfold len in *. lia.
Qed.

End WithObs.
End PriortizedReplayBufferFacts.

(** ** [RainbowReplayBuffer] *)

Module RainbowReplayBufferFacts.
Import RainbowReplayBuffer RainbowReplayBufferSpec.
Module PF := PriortizedReplayBufferFacts.
Section WithObs.
Context {Obs : Type}.
Implicit Types (self : t Obs) (tr : Transition Obs).

Lemma on_store_eq {A : Type} (m : M (P.t Obs) A) self (s' : P.t Obs)
  (o : outcome A) :
  m (store self) = (s', o) -> on_store m self = (set_store s' self, o).
Proof. intros H. unfold on_store. rewrite H. reflexivity. Qed.

Lemma window_after_snoc self tr :
  window_ok self ->
  exists older,
    window_after self tr = older ++ [tr] /\
    len older = Z.min (len (nstep_buffer self)) (nstep self - 1).
Proof.
  intros [Hn Hw]. unfold window_after, deque_append.
  destruct (nstep self =? 0) eqn:E0; [lia|].
  destruct (len (nstep_buffer self) =? nstep self) eqn:E.
  - apply Z.eqb_eq in E. eexists. split; [reflexivity|].
    unfold len in *. rewrite length_drop. lia.
  - apply Z.eqb_neq in E. eexists. split; [reflexivity|]. lia.
Qed.

(** *** [_get_nstep_info] *)

Lemma get_nstep_info_snoc self (older : list (Transition Obs)) last :
  nstep_buffer self = older ++ [last] ->
  _get_nstep_info self
    = Ok (fold_right (nstep_fold_step (alpha self))
                     (reward last, next_state last, done last) older).
Proof.
  intros Hw. unfold _get_nstep_info. rewrite Hw.
  unfold getitem. rewrite py_index_neg by (rewrite length_app; simpl; lia).
  replace (Z.to_nat (-1 + Z.of_nat (length (older ++ [last]))))
    with (length older) by (rewrite length_app; simpl; lia).
  rewrite lookup_app_r by lia. rewrite Nat.sub_diag. simpl.
  unfold slice_to. simpl.
  replace (Z.to_nat (len (older ++ [last]) + -1)) with (length older)
    by (unfold len; rewrite length_app; simpl; lia).
  rewrite take_app_length. reflexivity.
Qed.

Lemma fold_next_state_done (a : R) (older : list (Transition Obs)) last :
  let e := deciding_entry older last in
  exists r,
    fold_right (nstep_fold_step a)
               (reward last, next_state last, done last) older
    = (r, next_state e, done e).
Proof.
  induction older as [|x older IH]; simpl.
  - eexists. reflexivity.
  - destruct IH as [r IH]. rewrite IH. unfold deciding_entry. simpl.
    destruct (done x) eqn:Ex.
    + eexists. rewrite Ex. reflexivity.
    + eexists. reflexivity.
Qed.

(** *** [push] *)

(** While the window is short of [nstep] transitions, [push] only
    appends to it. *)
Lemma push_filling self (nstep_arg : Z) tr :
  len (nstep_buffer self) + 1 < nstep self ->
  push nstep_arg tr self
    = (set_nstep_buffer (nstep_buffer self ++ [tr]) self, Ok tt).
Proof.
  intros H. pose proof (len_nonneg (nstep_buffer self)).
  unfold push. py_unfold. simpl. unfold deque_append.
  destruct (nstep self =? 0) eqn:E0; [lia|].
  destruct (len (nstep_buffer self) =? nstep self) eqn:E; [lia|].
  rewrite len_app.
  destruct (len (nstep_buffer self) + 1 <? nstep self) eqn:E1; [|lia].
  reflexivity.
Qed.

(** Once the window is full, [push] stores one folded transition. *)
Lemma push_emits self (nstep_arg : Z) tr :
  ring self -> nstep self - 1 <= len (nstep_buffer self) ->
  exists first info max_prior,
    head (window_after self tr) = Some first /\
    _get_nstep_info (set_nstep_buffer (window_after self tr) self) = Ok info /\
    push nstep_arg tr self
      = (mk (PS.pushed (folded tr first info) max_prior (store self))
            (nstep self) (window_after self tr), Ok tt) /\
    match P.memory (store self) with
    | [] => max_prior = 1%R
    | _ :: _ => np_max (P.priorities (store self)) = Ok max_prior
    end.
Proof.
  intros [Hs Hw] Hfull.
  destruct (window_after_snoc self tr Hw) as (older & Hsnoc & Holder).
  destruct Hw as [Hn Hw].
  assert (Hlen : len (window_after self tr) = nstep self).
  { rewrite Hsnoc, len_app. lia. }
  destruct (window_after self tr) as [|first w] eqn:Ew.
  { unfold len in Hlen. simpl in Hlen. lia. }
  pose proof (get_nstep_info_snoc
                (set_nstep_buffer (first :: w) self) older tr Hsnoc) as Hinfo.
  set (info := fold_right _ _ _) in Hinfo.
  destruct (PF.priority_push_ring (store self) (folded tr first info) Hs)
    as (mp & Hpush & Hmp).
  exists first, info, mp. split; [reflexivity|]. split; [exact Hinfo|].
  split; [|exact Hmp].
  unfold push. py_unfold. simpl. fold (window_after self tr). rewrite Ew.
  destruct (len (first :: w) <? nstep self) eqn:E1; [lia|].
  unfold getitem at 1. simpl.
  rewrite Hinfo. destruct info as [[r ns] d] eqn:Einfo.
  unfold on_store. simpl. unfold folded in Hpush. simpl in Hpush.
  rewrite Hpush. reflexivity.
Qed.

Lemma push_after_pushes (n : Z) self (nstep_arg : Z) tr :
  0 <= n -> after_pushes n self ->
  exists self',
    push nstep_arg tr self = (self', Ok tt) /\
    after_pushes (n + 1) self' /\
    nstep self' = nstep self /\
    P.capacity (store self') = P.capacity (store self).
Proof.
  intros Hn ([Hs [Hn1 Hw]] & Hwin & Hlen).
  destruct (Z_lt_ge_dec (n + 1) (nstep self)) as [Hlt|Hge].
  - rewrite push_filling by lia. eexists. split; [reflexivity|].
    pose proof (proj1 Hs) as Hc.
    unfold after_pushes, ring, window_ok, __len__ in *. simpl.
    rewrite len_app.
    split; [|split; reflexivity].
    split; [split; [exact Hs|lia]|lia].
  - destruct (push_emits self nstep_arg tr) as (first & info & mp & _ & _ & Hp & _).
    { split; [exact Hs|split; assumption]. }
    { lia. }
    rewrite Hp. eexists. split; [reflexivity|].
    destruct (window_after_snoc self tr) as (older & Hsnoc & Holder).
    { split; assumption. }
    pose proof (PF.pushed_ring (store self) (folded tr first info) mp Hs) as Hr.
    pose proof (PF.pushed_len (store self) (folded tr first info) mp Hs) as Hl.
    unfold after_pushes, ring, window_ok, __len__ in *.
    unfold P.__len__ in Hl. simpl nstep. simpl nstep_buffer. simpl store.
    rewrite Hl, Hsnoc, len_app. simpl P.capacity.
    pose proof (proj1 Hs) as Hc.
    split; [|split; reflexivity].
    split; [split; [exact Hr|lia]|lia].
Qed.

Lemma pushes_after_pushes (items : list (Z * Transition Obs)) (n : Z) self :
  0 <= n -> after_pushes n self ->
  exists self',
    pushes items self = (self', Ok tt) /\
    after_pushes (n + len items) self' /\
    nstep self' = nstep self /\
    P.capacity (store self') = P.capacity (store self).
Proof.
  revert n self. induction items as [|[a tr] items IH]; intros n self Hn Ha.
  - exists self. unfold pushes, len. simpl. unfold ret.
    rewrite Z.add_0_r. split; [reflexivity|].
    split; [exact Ha|split; reflexivity].
  - destruct (push_after_pushes n self a tr Hn Ha) as (s1 & E1 & A1 & N1 & C1).
    destruct (IH (n + 1) s1) as (s2 & E2 & A2 & N2 & C2); [lia|exact A1|].
    exists s2. unfold pushes in *. simpl. unfold bind at 1. rewrite E1.
    split; [exact E2|].
    replace (n + len ((a, tr) :: items)) with (n + 1 + len items)
      by (unfold len; simpl length; lia).
    split; [exact A2|split; congruence].
Qed.

(** *** [__init__] *)

Lemma rainbow_init_nonneg (c n : Z) (a b i e : R) :
  0 <= c -> 0 <= n ->
  __init__ (Obs:=Obs) c n a b i e
    = Ok (mk (P.mk c a b i e [] (replicate (Z.to_nat c) 0%R) 0) n []).
Proof.
  intros Hc Hn. unfold __init__. rewrite PF.priority_init_nonneg by exact Hc.
  unfold deque_new. destruct (n <? 0) eqn:E; [lia|reflexivity].
Qed.


Lemma init_after_pushes (c n : Z) (a b i e : R) self :
  0 < c -> 1 <= n -> __init__ c n a b i e = Ok self ->
  after_pushes 0 self /\ nstep self = n /\ P.capacity (store self) = c.
Proof.
  intros Hc Hn. rewrite rainbow_init_nonneg by lia. intros H. inversion H.
  unfold after_pushes, ring, window_ok, PS.ring, __len__, len. simpl.
  rewrite length_replicate. repeat split; lia.
Qed.

(** What a [push] on a full window stores: [state] and [action] of the
    oldest entry of the window, [next_state] of the deciding entry, and
    the [done] flag of the transition just pushed. *)
Lemma push_stores self (nstep_arg : Z) tr :
  ring self -> nstep self - 1 <= len (nstep_buffer self) ->
  exists first older r max_prior,
    head (window_after self tr) = Some first /\
    window_after self tr = older ++ [tr] /\
    push nstep_arg tr self
      = (mk (PS.pushed
               (mkTransition (state first) (action first) r
                             (next_state (deciding_entry older tr)) (done tr))
               max_prior (store self))
            (nstep self) (window_after self tr), Ok tt).
Proof.
  intros Hr Hfull.
  destruct (push_emits self nstep_arg tr Hr Hfull)
    as (first & info & mp & Hhd & Hinfo & Hpush & _).
  destruct (window_after_snoc self tr (proj2 Hr)) as (older & Hsnoc & _).
  rewrite (get_nstep_info_snoc
             (set_nstep_buffer (window_after self tr) self) older tr Hsnoc)
    in Hinfo.
  destruct (fold_next_state_done
              (alpha (set_nstep_buffer (window_after self tr) self)) older tr)
    as [r Hfold].
  rewrite Hfold in Hinfo. inversion Hinfo as [Hi]. rewrite <- Hi in Hpush.
  exists first, older, r, mp. repeat split; assumption.
Qed.

(** *** The methods run on the repeated fields *)


End WithObs.
End RainbowReplayBufferFacts.

(** * The n-step fold *)

Module RBF := ReplayBufferFacts.
Module PF := PriortizedReplayBufferFacts.
Module NSF := RainbowReplayBufferFacts.

(** On a fresh buffer of window 3 the scenario stores one transition: the
    first two pushes only fill the window, and the third stores the fold,
    whose decay is the field [alpha]. *)
Lemma three_step_scenario_fold {Obs : Type} (c : Z) (alpha b i e : R)
  (s1 s2 s3 n1 n2 n3 : Obs) (a1 a2 a3 : Z) :
  0 < c ->
  exists self0 self3 r,
    NS.__init__ c 3 alpha b i e = Ok self0 /\
    three_step_scenario s1 s2 s3 n1 n2 n3 a1 a2 a3 self0 = (self3, Ok tt) /\
    P.memory (NS.store self3) = [mkTransition s1 a1 r n3 true] /\
    r = (1 + alpha * (1 + alpha * 1))%R.
Proof.
  intros Hc. rewrite NSF.rainbow_init_nonneg by lia.
  set (store0 := P.mk c alpha b i e [] (replicate (Z.to_nat c) 0%R) 0).
  assert (Hr0 : PS.ring store0).
  { eapply PF.priority_ring_init; [exact Hc|].
    apply PF.priority_init_nonneg. lia. }
  set (t1 := mkTransition s1 a1 1%R n1 false).
  set (t2 := mkTransition s2 a2 1%R n2 false).
  set (t3 := mkTransition s3 a3 1%R n3 true).
  destruct (NSF.push_emits (NS.mk store0 3 [t1; t2]) 3 t3)
    as (first & info & mp & Hhd & Hinfo & Hpush & _).
  { split; [exact Hr0|]. unfold NSS.window_ok, len. simpl. lia. }
  { unfold len. simpl. lia. }
  change (NSS.window_after (NS.mk store0 3 [t1; t2]) t3) with [t1; t2; t3] in *.
  simpl in Hhd. inversion Hhd; subst first.
  assert (Hfold : NS._get_nstep_info
                    (NS.set_nstep_buffer [t1; t2; t3] (NS.mk store0 3 [t1; t2]))
                  = Ok ((1 + alpha * (1 + alpha * 1 * (1 - 0)) * (1 - 0))%R,
                        n3, true))
    by (py_eval; reflexivity).
  rewrite Hfold in Hinfo. inversion Hinfo; subst info. clear Hinfo Hfold.
  eexists. eexists. eexists. split; [reflexivity|].
  split.
  - unfold three_step_scenario. unfold bind at 1.
    rewrite NSF.push_filling by (unfold len; simpl; lia).
    unfold bind at 1.
    rewrite NSF.push_filling by (unfold len; simpl; lia).
    simpl. exact Hpush.
  - simpl.
    destruct (len [] <? c) eqn:E;
      [|apply Z.ltb_ge in E; unfold len in E; simpl in E; lia].
    split; [reflexivity|]. simpl. lra.
Qed.

(** The fold of the scenario itself is the one of an n-step return: when
    the field [alpha] is 0.9, the stored reward is
    [1 + 0.9 * (1 + 0.9 * 1) = 2.71]. *)
Lemma nstep_scenario_alpha_09 {Obs : Type} (c : Z) (b i e : R)
  (s1 s2 s3 n1 n2 n3 : Obs) (a1 a2 a3 : Z) :
  0 < c ->
  exists self0 self3 r,
    NS.__init__ c 3 0.9%R b i e = Ok self0 /\
    three_step_scenario s1 s2 s3 n1 n2 n3 a1 a2 a3 self0 = (self3, Ok tt) /\
    P.memory (NS.store self3) = [mkTransition s1 a1 r n3 true] /\
    r = 2.71%R.
Proof.
  intros Hc.
  destruct (three_step_scenario_fold c 0.9%R b i e s1 s2 s3 n1 n2 n3 a1 a2 a3 Hc)
    as (self0 & self3 & r & H0 & H3 & Hm & Hr).
  exists self0, self3, r. repeat split; try assumption. lra.
Qed.

(** C1.  The constructor of the n-step buffer has no discount argument, and
    the fold decays with the priority exponent [alpha].  On the buffer
    built with [nstep = 3] and the other arguments at their defaults, the
    three pushes of reward 1 with [done = [False, False, True]] store
    exactly one transition, with [done = True] and the [next_state] of the
    third push, but its reward is [1 + 0.6 * (1 + 0.6 * 1) = 1.96] and not
    the 2.71 of a discount of 0.9. *)
Theorem nstep_scenario_default_reward {Obs : Type}
  (s1 s2 s3 n1 n2 n3 : Obs) (a1 a2 a3 : Z) :
  exists self0 self3 r,
    NS.__init__ 8 3 P.default_alpha P.default_beta
      P.default_beta_increment_per_sampling P.default_epsilon = Ok self0 /\
    three_step_scenario s1 s2 s3 n1 n2 n3 a1 a2 a3 self0 = (self3, Ok tt) /\
    P.memory (NS.store self3) = [mkTransition s1 a1 r n3 true] /\
    r = 1.96%R /\ r <> 2.71%R.
Proof.
  destruct (three_step_scenario_fold 8 P.default_alpha P.default_beta
              P.default_beta_increment_per_sampling P.default_epsilon
              s1 s2 s3 n1 n2 n3 a1 a2 a3 ltac:(lia))
    as (self0 & self3 & r & H0 & H3 & Hm & Hr).
  exists self0, self3, r. unfold P.default_alpha in Hr.
  repeat split; try assumption; lra.
Qed.

(** C2.  A full window whose oldest entry is terminal and whose last entry
    is not: the stored transition has the [state], the [action] and the
    [next_state] of the oldest entry, which is the earliest terminal one,
    but its [done] flag is the [False] of the transition just pushed. *)
Theorem nstep_early_done_flag {Obs : Type} (s1 s2 n1 n2 : Obs) (a1 a2 : Z)
  (r1 r2 : R) :
  exists self0 self2 r,
    NS.__init__ 8 2 P.default_alpha P.default_beta
      P.default_beta_increment_per_sampling P.default_epsilon = Ok self0 /\
    early_done_scenario s1 s2 n1 n2 a1 a2 r1 r2 self0 = (self2, Ok tt) /\
    NS.nstep_buffer self2
      = [mkTransition s1 a1 r1 n1 true; mkTransition s2 a2 r2 n2 false] /\
    NSS.deciding_entry [mkTransition s1 a1 r1 n1 true]
                       (mkTransition s2 a2 r2 n2 false)
      = mkTransition s1 a1 r1 n1 true /\
    P.memory (NS.store self2) = [mkTransition s1 a1 r n1 false].
Proof.
  eexists. eexists. eexists.
  split; [reflexivity|]. split; [py_eval; reflexivity|].
  split; [reflexivity|]. split; [reflexivity|]. py_eval. reflexivity.
Qed.

(** * Sampling beyond the stored length *)

Lemma demo_store_built :
  exists self0,
    P.__init__ 4 P.default_alpha P.default_beta
      P.default_beta_increment_per_sampling P.default_epsilon = Ok self0 /\
    P.push demo_transition self0 = (demo_store, Ok tt).
Proof. eexists. split; [reflexivity|]. py_eval. reflexivity. Qed.

Lemma demo_nstep_built :
  exists self0,
    NS.__init__ 4 1 P.default_alpha P.default_beta
      P.default_beta_increment_per_sampling P.default_epsilon = Ok self0 /\
    NS.push 1 demo_transition self0 = (demo_nstep, Ok tt).
Proof. eexists. split; [reflexivity|]. py_eval. reflexivity. Qed.

Lemma demo_uniform_built :
  exists self0,
    RB.__init__ 4 = Ok self0 /\
    RB.push demo_transition None self0 = (demo_uniform, Ok tt).
Proof. eexists. split; [reflexivity|]. py_eval. reflexivity. Qed.

Lemma demo_store_ring : PS.ring demo_store.
Proof. unfold PS.ring, demo_store, len. simpl. lia. Qed.

Lemma demo_store_positive_bases : positive_bases demo_store.
Proof.
  unfold positive_bases, demo_store, P.valid_priorities. simpl.
  unfold P.default_epsilon. repeat constructor. lra.
Qed.

(** [demo_store] is in the range of [float32]. *)
Lemma demo_store_float32_range : float32_range demo_store.
Proof.
  unfold float32_range, demo_store, P.valid_priorities, float32_tiny,
    float32_max. simpl.
  unfold P.default_alpha, P.default_epsilon, np_sum, np_power. simpl.
  split; [lra|]. split; [lra|]. split; [repeat constructor; lra|].
  assert (H : (Rpower (1 + 0.00001) 0.6 <= Rpower (1 + 0.00001) 1)%R)
    by (apply Rle_Rpower; lra).
  rewrite Rpower_1 in H by lra. lra.
Qed.

Lemma demo_store_int64_actions : int64_actions (P.memory demo_store).
Proof. repeat constructor; simpl; lia. Qed.








(** * Priority updates *)

Lemma py_index_Some_cases (n : nat) (i : Z) (j : nat) :
  py_index n i = Some j -> Z.of_nat j = i \/ Z.of_nat j = i + Z.of_nat n.
Proof.
  intros H. pose proof (py_index_Some_range n i j H) as Hr.
  destruct (Z_lt_ge_dec i 0) as [Hneg|Hpos].
  - rewrite py_index_neg in H by lia. inversion H. lia.
  - rewrite py_index_nonneg in H by lia. inversion H. lia.
Qed.

(** One turn of the loop of [update_priorities], on an index in range. *)
Lemma update_priorities_cons {Obs : Type} (idx : Z) (indicies : list Z)
  (prior : R) (new_prior : list R) (self : P.t Obs) (j : nat) :
  py_index (length (P.priorities self)) idx = Some j ->
  P.update_priorities (idx :: indicies) (prior :: new_prior) self
    = P.update_priorities indicies new_prior
        (P.set_priorities (<[j := prior]> (P.priorities self)) self).
Proof.
  intros Hj. unfold P.update_priorities. simpl. py_unfold. unfold setitem.
  rewrite Hj. reflexivity.
Qed.

Lemma update_priorities_cons_out {Obs : Type} (idx : Z) (indicies : list Z)
  (prior : R) (new_prior : list R) (self : P.t Obs) :
  py_index (length (P.priorities self)) idx = None ->
  P.update_priorities (idx :: indicies) (prior :: new_prior) self
    = (self, Raise IndexError).
Proof.
  intros Hj. unfold P.update_priorities. simpl. py_unfold. unfold setitem.
  rewrite Hj. reflexivity.
Qed.

(** The slot addressed by an index of [[-n, n)]. *)
Lemma py_index_addressed_slot (n : nat) (idx : Z) :
  - Z.of_nat n <= idx < Z.of_nat n ->
  py_index n idx = Some (addressed_slot (Z.of_nat n) idx).
Proof.
  intros H. unfold addressed_slot. destruct (idx <? 0) eqn:E.
  - apply Z.ltb_lt in E. apply py_index_neg. lia.
  - apply Z.ltb_ge in E. apply py_index_nonneg. lia.
Qed.

(** A pair that the loop reaches is written, and what it wrote stays
    unless a later index addresses the same slot. *)
Lemma update_priorities_written {Obs : Type} (indicies : list Z)
  (new_prior : list R) (self self' : P.t Obs) (o : outcome unit) (k : nat)
  (idx : Z) (p : R) :
  P.update_priorities indicies new_prior self = (self', o) ->
  indicies !! k = Some idx -> new_prior !! k = Some p ->
  Forall (fun i => py_index (length (P.priorities self)) i <> None)
         (take (S k) indicies) ->
  (forall (k' : nat) (idx' : Z),
     (k < k')%nat -> indicies !! k' = Some idx' ->
     py_index (length (P.priorities self)) idx'
     <> py_index (length (P.priorities self)) idx) ->
  exists j,
    py_index (length (P.priorities self)) idx = Some j /\
    P.priorities self' !! j = Some p.
Proof.
  revert new_prior self k.
  induction indicies as [|idx0 indicies IH];
    intros new_prior self k Hup Hk Hp Hreach Hlater.
  - rewrite lookup_nil in Hk. discriminate.
  - destruct new_prior as [|p0 new_prior];
      [rewrite lookup_nil in Hp; discriminate|].
    simpl in Hreach. apply Forall_cons in Hreach.
    destruct Hreach as [H0 Hreach].
    destruct (py_index (length (P.priorities self)) idx0) as [j0|] eqn:E0;
      [|congruence].
    rewrite (update_priorities_cons _ _ _ _ _ _ E0) in Hup.
    destruct k as [|k]; simpl in Hk, Hp.
    + injection Hk as ->. injection Hp as ->.
      exists j0. split; [exact E0|].
      destruct (PF.update_priorities_frame _ _ _ _ _ Hup) as (_ & _ & Hframe).
      rewrite Hframe.
      * simpl. apply list_lookup_insert_eq.
        apply (py_index_Some_lt _ _ _ E0).
      * intros idx' Hin. simpl. rewrite length_insert. rewrite <- E0.
        apply list_elem_of_In, list_elem_of_lookup in Hin.
        destruct Hin as [k' Hk'].
        apply (Hlater (S k') idx'); [lia|exact Hk'].
    + destruct (IH new_prior _ k Hup Hk Hp) as (j & Hj & Hw).
      * simpl. rewrite length_insert. exact Hreach.
      * intros k' idx' Hlt Hk'. simpl. rewrite length_insert.
        apply (Hlater (S k') idx'); [lia|exact Hk'].
      * simpl in Hj. rewrite length_insert in Hj.
        exists j. split; assumption.
Qed.

Lemma priority_update_effect {Obs : Type} (self : P.t Obs)
  (indicies : list Z) (new_prior : list R) :
  (length indicies <= length new_prior)%nat ->
  len (P.priorities self) = P.capacity self ->
  update_effect self indicies new_prior
    (P.update_priorities indicies new_prior self).
Proof.
  intros Hlen Hcap. unfold update_effect.
  destruct (P.update_priorities indicies new_prior self) as [self' o] eqn:E.
  simpl. rewrite <- Hcap.
  split; [|split; [|split; [|split]]].
  - intros Hex.
    destruct (PF.update_priorities_raises indicies new_prior self Hlen Hex)
      as [s Hs].
    congruence.
  - intros Hall.
    destruct (PF.update_priorities_returns indicies new_prior self Hall)
      as [s Hs].
    congruence.
  - apply (PF.update_priorities_frame _ _ _ _ _ E).
  - intros j Hj.
    apply (PF.update_priorities_frame _ _ _ _ _ E).
    intros idx Hin Hidx. apply py_index_Some_cases in Hidx.
    destruct (Hj idx Hin) as [H1 H2]. unfold len in *. lia.
  - intros k idx p Hk Hp _ Hreach Hlater. unfold len in *.
    assert (Hidx : - Z.of_nat (length (P.priorities self)) <= idx
                   < Z.of_nat (length (P.priorities self))).
    { rewrite Forall_forall in Hreach. apply Hreach.
      apply list_elem_of_lookup. exists k.
      rewrite lookup_take_lt by lia. exact Hk. }
    destruct (update_priorities_written indicies new_prior self self' o
                k idx p E Hk Hp) as (j & Hj & Hw).
    + eapply Forall_impl; [exact Hreach|]. intros i Hi. simpl in Hi.
      rewrite py_index_addressed_slot by exact Hi. discriminate.
    + intros k' idx' Hlt Hk' Heq.
      rewrite (py_index_addressed_slot _ idx Hidx) in Heq.
      pose proof (py_index_Some_range _ _ _ Heq) as Hr'.
      rewrite (py_index_addressed_slot _ idx' Hr') in Heq.
      injection Heq as Heq. unfold addressed_slot in Heq.
      destruct (Hlater k' idx' Hlt Hk') as (N1 & N2 & N3).
      destruct (idx' <? 0) eqn:E1, (idx <? 0) eqn:E2; lia.
    + rewrite (py_index_addressed_slot _ idx Hidx) in Hj.
      injection Hj as <-. exact Hw.
Qed.

(** C4 (as the code has it).  The priority array is indexed as NumPy
    indexes, and the pairs of an index and a priority are written in
    order.  A pair whose index lies in [[-capacity, capacity)], as do the
    indices before it, writes its priority (one that [float32] holds as a
    finite number) into slot [idx], or into slot [idx + capacity] when
    [idx] is negative; the slot keeps it unless a later index addresses
    the same slot.  If an index lies outside
    [[-capacity, capacity)] the call raises the built-in [IndexError],
    having written the pairs before that index, and if all lie inside it
    returns.  Whether the call fails or not, it changes no field but the
    priorities, and the priority of every slot that the given indices do
    not address is left unchanged. *)
Theorem update_priorities_index_range {Obs : Type} (pb : P.t Obs)
  (nb : NS.t Obs) (indicies : list Z) (new_prior : list R) :
  (length indicies <= length new_prior)%nat ->
  len (P.priorities pb) = P.capacity pb ->
  len (P.priorities (NS.store nb)) = P.capacity (NS.store nb) ->
  update_effect pb indicies new_prior
    (P.update_priorities indicies new_prior pb) /\
  exists s' o,
    NS.update_priorities indicies new_prior nb = (NS.set_store s' nb, o) /\
    update_effect (NS.store nb) indicies new_prior (s', o).
Proof.
  intros Hlen Hp Hn. split.
  - apply priority_update_effect; assumption.
  - destruct (P.update_priorities indicies new_prior (NS.store nb))
      as [s' o] eqn:E.
    exists s', o. split.
    + apply NSF.on_store_eq. exact E.
    + rewrite <- E. apply priority_update_effect; assumption.
Qed.

Lemma update_priorities_index_range_witness :
  (P.update_priorities [-1; 5] [5%R; 7%R] demo_store).2 = Raise IndexError /\
  P.priorities (P.update_priorities [-1; 5] [5%R; 7%R] demo_store).1
    !! addressed_slot 4 (-1) = Some 5%R.
Proof.
  destruct (update_priorities_index_range demo_store demo_nstep
              [-1; 5] [5%R; 7%R]) as [(Hraise & _ & _ & _ & Hw) _].
  - simpl. lia.
  - reflexivity.
  - reflexivity.
  - split.
    + apply Hraise. right. left. simpl. lia.
    + apply (Hw 0%nat (-1) 5%R).
      * reflexivity.
      * reflexivity.
      * unfold float32_max. rewrite Rabs_pos_eq; lra.
      * repeat constructor; simpl; lia.
      * intros k' idx' Hlt Hk'.
        destruct k' as [|[|k']]; simpl in Hk'; [lia| |discriminate].
        injection Hk' as <-. simpl. lia.
Defined.

(** C4 (as stated) fails: the index [-1] is outside [[0, capacity)] and the
    call returns, having written slot 3 of the four. *)
Lemma update_priorities_negative_index :
  P.capacity demo_store = 4 /\
  P.update_priorities [-1] [5%R] demo_store
    = (P.set_priorities [1%R; 0%R; 0%R; 5%R] demo_store, Ok tt).
Proof. split; [reflexivity|]. py_eval. reflexivity. Qed.

(** * Construction *)




(** * The priority of a new slot *)

Lemma priority_push_new_slot {Obs : Type} (self : P.t Obs)
  (data : Transition Obs) :
  PS.ring self ->
  exists self' p,
    P.push data self = (self', Ok tt) /\
    P.priorities self' !! Z.to_nat (P.pos self) = Some p /\
    new_slot_priority self p.
Proof.
  intros Hr. destruct (PF.priority_push_ring self data Hr) as (mp & Hpush & Hmp).
  exists (PS.pushed data mp self), mp. split; [exact Hpush|].
  split; [apply PF.pushed_priority; exact Hr|].
  unfold new_slot_priority.
  destruct (P.memory self) as [|x m] eqn:Em.
  - split; [intros _; exact Hmp|]. split; intros H; congruence.
  - apply np_max_is_max in Hmp.
    split; [discriminate|]. split; [intros _; exact Hmp|].
    intros _ Hz Hnn. apply PF.is_max_valid; try assumption.
    rewrite Em. discriminate.
Qed.

(** C6.  A [push] into a priority store, and a [push] into the n-step
    buffer that fills its window, give the slot they write the priority 1
    when the store is empty and the maximum of the stored priorities
    otherwise. *)
Theorem push_priority_is_max {Obs : Type} (pb : P.t Obs) (nb : NS.t Obs)
  (data tr : Transition Obs) (nstep_arg : Z) :
  PS.ring pb -> NSS.ring nb ->
  NS.nstep nb - 1 <= len (NS.nstep_buffer nb) ->
  (exists pb' p,
     P.push data pb = (pb', Ok tt) /\
     P.priorities pb' !! Z.to_nat (P.pos pb) = Some p /\
     new_slot_priority pb p) /\
  (exists nb' p,
     NS.push nstep_arg tr nb = (nb', Ok tt) /\
     P.priorities (NS.store nb') !! Z.to_nat (P.pos (NS.store nb)) = Some p /\
     new_slot_priority (NS.store nb) p).
Proof.
  intros Hp Hn Hfull. split; [apply priority_push_new_slot; exact Hp|].
  destruct (NSF.push_emits nb nstep_arg tr Hn Hfull)
    as (first & info & mp & _ & _ & Hpush & Hmp).
  destruct (priority_push_new_slot (NS.store nb) (NSS.folded tr first info)
              (proj1 Hn)) as (s' & p & Hs & Hlook & Hnew).
  destruct (PF.priority_push_ring (NS.store nb) (NSS.folded tr first info)
              (proj1 Hn)) as (mp' & Hs' & Hmp').
  assert (mp' = mp).
  { destruct (P.memory (NS.store nb)); [congruence|].
    rewrite Hmp in Hmp'. congruence. }
  subst mp'. rewrite Hs in Hs'. inversion Hs' as [Heq].
  eexists. exists p. split; [exact Hpush|]. simpl NS.store.
  rewrite <- Heq. split; assumption.
Qed.

Lemma demo_nstep_ring : NSS.ring demo_nstep.
Proof.
  split; [exact demo_store_ring|].
  unfold NSS.window_ok, demo_nstep, len. simpl. lia.
Qed.

Lemma push_priority_is_max_witness :
  exists pb' p,
    P.push demo_transition demo_store = (pb', Ok tt) /\
    P.priorities pb' !! Z.to_nat (P.pos demo_store) = Some p /\
    new_slot_priority demo_store p.
Proof.
  apply (push_priority_is_max demo_store demo_nstep demo_transition
           demo_transition 1 demo_store_ring demo_nstep_ring).
  unfold demo_nstep, len. simpl. lia.
Defined.

(** * The length after a run of pushes *)

(** C7 (as the code has it).  From a fresh buffer of positive capacity,
    every [push] of a run returns.  For [ReplayBuffer] and
    [PriortizedReplayBuffer], [len()] is then the minimum of the number of
    pushes and the capacity.  The n-step buffer stores nothing for its
    first [nstep - 1] pushes: its [len()] is the minimum of the capacity
    and the number of pushes from the [nstep]-th on. *)
Theorem len_after_pushes {Obs : Type} (c n : Z) (a b i e : R)
  (uitems : list (Transition Obs * option Z))
  (pitems : list (Transition Obs))
  (nitems : list (Z * Transition Obs)) :
  0 < c -> 1 <= n ->
  (exists self0 self,
     RB.__init__ c = Ok self0 /\
     RBS.pushes uitems self0 = (self, Ok tt) /\
     RB.__len__ self = Z.min (len uitems) c) /\
  (exists self0 self,
     P.__init__ c a b i e = Ok self0 /\
     PS.pushes pitems self0 = (self, Ok tt) /\
     P.__len__ self = Z.min (len pitems) c) /\
  (exists self0 self,
     NS.__init__ c n a b i e = Ok self0 /\
     NSS.pushes nitems self0 = (self, Ok tt) /\
     NS.__len__ self = Z.min (Z.max (len nitems - (n - 1)) 0) c).
Proof.
  intros Hc Hn. split; [|split].
  - pose proof (RBF.uniform_ring_init (Obs:=Obs) c (RB.mk c [] 0) Hc eq_refl)
      as Hr.
    destruct (RBF.uniform_pushes_ring uitems _ Hr) as (self & Hp & _ & _ & Hl).
    exists (RB.mk c [] 0), self. split; [reflexivity|]. split; [exact Hp|].
    rewrite Hl. unfold RB.__len__, len. simpl. lia.
  - pose proof (PF.priority_init_nonneg (Obs:=Obs) c a b i e) as Hi.
    rewrite Hi by lia.
    pose proof (PF.priority_ring_init c a b i e _ Hc (Hi ltac:(lia))) as Hr.
    destruct (PF.priority_pushes_ring pitems _ Hr) as (self & Hp & _ & _ & Hl).
    eexists. exists self. split; [reflexivity|]. split; [exact Hp|].
    rewrite Hl. unfold P.__len__, len. simpl. lia.
  - pose proof (NSF.rainbow_init_nonneg (Obs:=Obs) c n a b i e) as Hi.
    rewrite Hi by lia.
    destruct (NSF.init_after_pushes c n a b i e _ Hc Hn (Hi ltac:(lia) ltac:(lia)))
      as (Ha & Hn0 & Hc0).
    destruct (NSF.pushes_after_pushes nitems 0 _ ltac:(lia) Ha)
      as (self & Hp & (_ & _ & Hl) & Hn1 & Hc1).
    eexists. exists self. split; [reflexivity|]. split; [exact Hp|].
    rewrite Hl, Hn1, Hc1. simpl. lia.
Qed.

Lemma len_after_pushes_witness :
  exists self0 self,
    NS.__init__ 2 3 P.default_alpha P.default_beta
      P.default_beta_increment_per_sampling P.default_epsilon = Ok self0 /\
    NSS.pushes (replicate 6 (3, demo_transition)) self0 = (self, Ok tt) /\
    NS.__len__ self = Z.min (Z.max (len (replicate 6 (3, demo_transition))
                                    - (3 - 1)) 0) 2.
Proof.
  apply (len_after_pushes 2 3 P.default_alpha P.default_beta
           P.default_beta_increment_per_sampling P.default_epsilon
           [] [] (replicate 6 (3, demo_transition))); lia.
Defined.

(** C7 (as stated) fails for the n-step buffer: after one [push] into a
    buffer of window 3 and capacity 8 its [len()] is 0, not 1. *)
Lemma nstep_len_after_one_push :
  exists self0 self1,
    NS.__init__ 8 3 P.default_alpha P.default_beta
      P.default_beta_increment_per_sampling P.default_epsilon = Ok self0 /\
    NSS.pushes [(3, demo_transition)] self0 = (self1, Ok tt) /\
    NS.__len__ self1 = 0 /\
    Z.min (len [(3, demo_transition)]) 8 = 1.
Proof.
  eexists. eexists. split; [reflexivity|].
  split; [py_eval; reflexivity|]. split; reflexivity.
Qed.

(** * Importance-sampling weights *)



(** * Annealing of [beta] *)






(** Over any series of calls the values of [beta] are in non-decreasing
    order and at most 1. *)
Lemma beta_run_sorted {Obs : Type} (calls : list ((nat -> nat) * Z))
  (self : P.t Obs) :
  (0 <= P.beta_increment self)%R -> (P.beta self <= 1)%R ->
  Sorted Rle (map P.beta (self :: sample_run calls self)) /\
  Forall (fun s => (P.beta s <= 1)%R) (self :: sample_run calls self).
Proof.
  revert self. induction calls as [|[u k] calls IH]; intros self Hi Hb.
  - simpl. split; [repeat constructor|].
    constructor; [exact Hb|constructor].
  - destruct (PF.sample_beta u k self Hi Hb) as (H1 & H2 & H3 & _).
    simpl in H1, H2, H3. rewrite <- H3 in Hi.
    destruct (IH _ Hi H2) as [IH1 IH2]. simpl. split.
    + constructor; [exact IH1|]. constructor. exact H1.
    + constructor; [exact Hb|exact IH2].
Qed.

(** * The sixth component of a uniform batch *)

(** C10.  In a batch returned by [ReplayBuffer.sample] the [next_actions]
    are the [actions], and the batch is the same whatever [next_action]
    values the buffer stores. *)
Theorem uniform_next_actions_are_actions {Obs : Type} (u : nat -> nat)
  (batch_size : Z) (self self' : RB.t Obs) (batch : RB.Batch Obs)
  (f : option Z -> option Z) :
  RB.sample u batch_size self = (self', Ok batch) ->
  RB.next_actions batch = RB.actions batch /\
  RB.sample u batch_size (RBS.with_next_actions f self)
    = (RBS.with_next_actions f self', Ok batch).
Proof.
  unfold RB.sample. py_unfold. unfold random_sample.
  unfold RBS.with_next_actions at 1. simpl RB.buffer.
  replace (len (map _ (RB.buffer self))) with (len (RB.buffer self))
    by (unfold len; rewrite length_map; reflexivity).
  destruct ((0 <=? batch_size) && (batch_size <=? len (RB.buffer self)));
    [|discriminate].
  rewrite RBF.draw_distinct_map.
  destruct (RB.zip_star (draw_distinct u 0 (RB.buffer self)
                           (Z.to_nat batch_size))) as [cols|] eqn:Ez;
    [|discriminate].
  destruct (RBF.zip_star_next_actions f _ _ Ez)
    as (cols' & Ez' & H1 & H2 & H3 & H4 & H5).
  rewrite Ez', H2.
  destruct (torch_tensor_long (RB.col_actions cols)) as [acts|] eqn:Ea;
    [|discriminate].
  apply torch_tensor_long_Ok in Ea. destruct Ea as [-> Hrange].
  rewrite (torch_tensor_long_in_range _ Hrange).
  intros H. injection H as <- <-.
  split; [reflexivity|]. rewrite H1, H3, H4, H5. reflexivity.
Qed.

Lemma uniform_next_actions_are_actions_witness :
  exists self' batch,
    RB.sample (fun _ => 0%nat) 1 demo_uniform = (self', Ok batch) /\
    RB.next_actions batch = RB.actions batch /\
    RB.sample (fun _ => 0%nat) 1
      (RBS.with_next_actions (fun _ => Some 7) demo_uniform)
      = (RBS.with_next_actions (fun _ => Some 7) self', Ok batch).
Proof.
  eexists. eexists. split; [py_eval; reflexivity|].
  apply (uniform_next_actions_are_actions (fun _ => 0%nat) 1 demo_uniform).
  py_eval. reflexivity.
Defined.

(** * Further properties *)

(** ** The ring of stored transitions *)

Lemma ring_slot_distinct (c : Z) (i n : nat) :
  0 < c -> (i < n)%nat -> Z.of_nat n - c < Z.of_nat i ->
  ring_slot c i <> ring_slot c n.
Proof.
  intros Hc Hlt Hnear Heq. unfold ring_slot in Heq.
  pose proof (Z.mod_pos_bound (Z.of_nat i) c Hc).
  pose proof (Z.mod_pos_bound (Z.of_nat n) c Hc).
  assert (E : Z.of_nat i mod c = Z.of_nat n mod c) by lia.
  assert (D : (Z.of_nat n - Z.of_nat i) mod c = 0).
  { rewrite Zminus_mod, E, Z.sub_diag. apply Z.mod_0_l. lia. }
  rewrite Z.mod_small in D by lia. lia.
Qed.

(** One more write into a ring: appended while the ring grows, written
    over the slot of the cursor afterwards. *)
Lemma ring_holds_write {A : Type} (c : Z) (hist l : list A) (x : A) :
  0 < c -> len l = Z.min (len hist) c -> ring_holds c hist l ->
  ring_holds c (hist ++ [x])
    (if len l <? c then l ++ [x] else <[ring_slot c (length hist) := x]> l).
Proof.
  intros Hc Hlen Hold i y Hnear Hi. rewrite length_app in Hnear. simpl in Hnear.
  unfold len in *.
  destruct (Nat.eq_dec i (length hist)) as [->|Hne].
  - rewrite lookup_app_r in Hi by lia. rewrite Nat.sub_diag in Hi.
    inversion Hi; subst y.
    destruct (Z.of_nat (length l) <? c) eqn:E.
    + apply Z.ltb_lt in E.
      assert (length l = length hist) by lia.
      unfold ring_slot. rewrite Z.mod_small by lia. rewrite Nat2Z.id.
      rewrite lookup_app_r by lia.
      replace (length hist - length l)%nat with 0%nat by lia. reflexivity.
    + apply Z.ltb_ge in E. apply list_lookup_insert_eq.
      unfold ring_slot.
      pose proof (Z.mod_pos_bound (Z.of_nat (length hist)) c Hc). lia.
  - assert (Hlt : (i < length hist)%nat).
    { apply lookup_lt_Some in Hi. rewrite length_app in Hi. simpl in Hi. lia. }
    rewrite lookup_app_l in Hi by exact Hlt.
    assert (Hslot : l !! ring_slot c i = Some y) by (apply Hold; [lia|exact Hi]).
    destruct (Z.of_nat (length l) <? c) eqn:E.
    + rewrite lookup_app_l; [exact Hslot|]. apply lookup_lt_Some in Hslot. exact Hslot.
    + rewrite list_lookup_insert_ne; [exact Hslot|].
      intros Heq. apply (ring_slot_distinct c i (length hist)); lia.
Qed.

Lemma cursor_step (c : Z) (n : nat) :
  0 < c -> (Z.of_nat n mod c + 1) mod c = Z.of_nat (S n) mod c.
Proof.
  intros Hc. rewrite Zplus_mod_idemp_l. f_equal. lia.
Qed.

(** The fields [ReplayBuffer.push] leaves. *)
Lemma uniform_push_eq {Obs : Type} (self : RB.t Obs) (tr : Transition Obs)
  (na : option Z) :
  RBS.ring self ->
  RB.push tr na self
    = (RB.mk (RB.capacity self)
         (if len (RB.buffer self) <? RB.capacity self
          then RB.buffer self ++ [Some (RB.mkEntry tr na)]
          else <[Z.to_nat (RB.pos self) := Some (RB.mkEntry tr na)]>
                 (RB.buffer self))
         ((RB.pos self + 1) mod RB.capacity self), Ok tt).
Proof.
  intros (Hc & Hle & Hpos & Hrange). unfold RB.push. py_unfold.
  destruct (len (RB.buffer self) <? RB.capacity self) eqn:E; simpl.
  - apply Z.ltb_lt in E. specialize (Hpos E).
    rewrite setitem_nonneg by (rewrite len_app; lia).
    unfold py_mod. destruct (RB.capacity self =? 0) eqn:E0; [lia|]. simpl.
    rewrite Hpos. unfold len. rewrite Nat2Z.id.
    rewrite insert_app_r_alt by lia. rewrite Nat.sub_diag. reflexivity.
  - apply Z.ltb_ge in E. rewrite setitem_nonneg by lia.
    unfold py_mod. destruct (RB.capacity self =? 0) eqn:E0; [lia|]. reflexivity.
Qed.

Lemma uniform_after_push {Obs : Type} (hist : list (Transition Obs * option Z))
  (self : RB.t Obs) (tr : Transition Obs) (na : option Z) :
  uniform_after hist self ->
  exists self',
    RB.push tr na self = (self', Ok tt) /\
    RB.capacity self' = RB.capacity self /\
    uniform_after (hist ++ [(tr, na)]) self'.
Proof.
  intros (Hr & Hpos & rows & Hb & Hlen & Hold).
  rewrite (uniform_push_eq self tr na Hr). eexists. split; [reflexivity|].
  split; [reflexivity|].
  destruct (RBF.uniform_push_ring self tr na Hr) as (s' & Hs' & Hr' & _).
  rewrite (uniform_push_eq self tr na Hr) in Hs'. inversion Hs' as [Heq].
  rewrite Heq. split; [exact Hr'|]. rewrite <- Heq. simpl.
  destruct Hr as (Hc & _).
  split.
  - rewrite Hpos. unfold len. rewrite length_app. simpl.
    rewrite cursor_step by exact Hc. f_equal. lia.
  - assert (Hl : len (RB.buffer self) = len rows)
      by (rewrite Hb; unfold len; rewrite length_map; reflexivity).
    exists (if len rows <? RB.capacity self
            then rows ++ [RB.mkEntry tr na]
            else <[ring_slot (RB.capacity self) (length (map entry_of hist))
                   := RB.mkEntry tr na]> rows).
    rewrite Hl, Hb, Hpos. split; [|split].
    + destruct (len rows <? RB.capacity self).
      * change (map Some ?l) with (fmap (M:=list) Some l).
        rewrite fmap_app. reflexivity.
      * change (map Some ?l) with (fmap (M:=list) Some l).
        rewrite list_fmap_insert. unfold ring_slot, len.
        rewrite length_map. reflexivity.
    + unfold len in *. rewrite length_app. simpl.
      destruct (Z.of_nat (length rows) <? RB.capacity self) eqn:E.
      * apply Z.ltb_lt in E. rewrite length_app. simpl. lia.
      * apply Z.ltb_ge in E. rewrite length_insert. lia.
    + change (map entry_of (hist ++ [(tr, na)]))
        with (fmap (M:=list) entry_of (hist ++ [(tr, na)])).
      rewrite fmap_app. simpl.
      apply ring_holds_write; [exact Hc| |exact Hold].
      unfold len in *. rewrite length_map. exact Hlen.
Qed.

Lemma uniform_after_pushes {Obs : Type} (items hist : list (Transition Obs * option Z))
  (self : RB.t Obs) :
  uniform_after hist self ->
  exists self',
    RBS.pushes items self = (self', Ok tt) /\
    RB.capacity self' = RB.capacity self /\
    uniform_after (hist ++ items) self'.
Proof.
  revert hist self. induction items as [|[tr na] items IH]; intros hist self Ha.
  - exists self. rewrite app_nil_r.
    split; [reflexivity|]. split; [reflexivity|exact Ha].
  - destruct (uniform_after_push hist self tr na Ha) as (s1 & E1 & C1 & A1).
    destruct (IH _ _ A1) as (s2 & E2 & C2 & A2).
    exists s2. unfold RBS.pushes in *. simpl. unfold bind at 1. rewrite E1.
    split; [exact E2|]. split; [congruence|].
    rewrite <- app_assoc in A2. exact A2.
Qed.

Lemma priority_after_pushed {Obs : Type} (hist : list (Transition Obs))
  (self : P.t Obs) (data : Transition Obs) (mp : R) :
  priority_after hist self ->
  priority_after (hist ++ [data]) (PS.pushed data mp self).
Proof.
  intros (Hr & Hpos & Hlen & Hold).
  split; [apply PF.pushed_ring; exact Hr|].
  pose proof (PF.pushed_len self data mp Hr) as Hl. unfold P.__len__ in Hl.
  destruct Hr as (Hc & _). simpl P.capacity. simpl P.pos.
  split; [|split].
  - rewrite Hpos. unfold len. rewrite length_app. simpl.
    rewrite cursor_step by exact Hc. f_equal. lia.
  - rewrite Hl. unfold len in *. rewrite length_app. simpl. lia.
  - simpl P.memory. rewrite Hpos.
    apply ring_holds_write; assumption.
Qed.

Lemma priority_after_pushes {Obs : Type} (items hist : list (Transition Obs))
  (self : P.t Obs) :
  priority_after hist self ->
  exists self',
    PS.pushes items self = (self', Ok tt) /\
    P.capacity self' = P.capacity self /\
    priority_after (hist ++ items) self'.
Proof.
  revert hist self. induction items as [|data items IH]; intros hist self Ha.
  - exists self. rewrite app_nil_r.
    split; [reflexivity|]. split; [reflexivity|exact Ha].
  - destruct (PF.priority_push_ring self data (proj1 Ha)) as (mp & E1 & _).
    destruct (IH _ _ (priority_after_pushed hist self data mp Ha))
      as (s2 & E2 & C2 & A2).
    exists s2. unfold PS.pushes in *. simpl. unfold bind at 1. rewrite E1.
    split; [exact E2|]. split; [exact C2|].
    rewrite <- app_assoc in A2. exact A2.
Qed.

(** X1.  After any run of pushes into a fresh [ReplayBuffer] of positive
    capacity [c], the cursor is the number of pushes modulo [c], the
    buffer holds no [None], and each of the last [c] pushed items is found
    in the slot of its rank modulo [c]: older items have been overwritten
    in place. *)
Theorem uniform_ring_contents {Obs : Type} (c : Z)
  (items : list (Transition Obs * option Z)) (self0 : RB.t Obs) :
  0 < c -> RB.__init__ c = Ok self0 ->
  exists self,
    RBS.pushes items self0 = (self, Ok tt) /\
    RB.pos self = len items mod c /\
    Forall (fun o => o <> None) (RB.buffer self) /\
    forall (i : nat) (item : Transition Obs * option Z),
      len items - c <= Z.of_nat i ->
      items !! i = Some item ->
      RB.buffer self !! ring_slot c i = Some (Some (entry_of item)).
Proof.
  intros Hc H0. inversion H0 as [E0]. clear H0.
  assert (Ha : uniform_after [] (RB.mk (Obs:=Obs) c [] 0)).
  { split; [apply (RBF.uniform_ring_init c _ Hc eq_refl)|].
    split; [reflexivity|]. exists []. unfold len. simpl.
    repeat split; try lia. intros i x _ Hi. rewrite lookup_nil in Hi.
    discriminate. }
  destruct (uniform_after_pushes items [] _ Ha)
    as (self & Hp & Hcap & (_ & Hpos & rows & Hb & _ & Hold)).
  simpl in Hcap. rewrite Hcap in *. simpl app in *.
  exists self. split; [exact Hp|]. split; [exact Hpos|]. split.
  - rewrite Hb. apply Forall_forall. intros o Ho.
    apply list_elem_of_In, in_map_iff in Ho. destruct Ho as (e & <- & _).
    discriminate.
  - intros i item Hnear Hi. rewrite Hb.
    change (map Some rows) with (fmap (M:=list) Some rows).
    rewrite list_lookup_fmap.
    rewrite (Hold i (entry_of item)); [reflexivity| |].
    + unfold len in Hnear. rewrite length_map. exact Hnear.
    + change (map entry_of items) with (fmap (M:=list) entry_of items).
      rewrite list_lookup_fmap, Hi. reflexivity.
Qed.

(** X2.  After any run of pushes into a fresh [PriortizedReplayBuffer] of
    positive capacity [c], the cursor is the number of pushes modulo [c],
    and each of the last [c] pushed transitions is found in the memory
    slot of its rank modulo [c]. *)
Theorem priority_ring_contents {Obs : Type} (c : Z) (a b i e : R)
  (items : list (Transition Obs)) (self0 : P.t Obs) :
  0 < c -> P.__init__ c a b i e = Ok self0 ->
  exists self,
    PS.pushes items self0 = (self, Ok tt) /\
    P.pos self = len items mod c /\
    forall (k : nat) (data : Transition Obs),
      len items - c <= Z.of_nat k ->
      items !! k = Some data ->
      P.memory self !! ring_slot c k = Some data.
Proof.
  intros Hc H0.
  pose proof (PF.priority_ring_init c a b i e self0 Hc H0) as Hr.
  rewrite PF.priority_init_nonneg in H0 by lia. inversion H0 as [E0].
  subst self0.
  assert (Ha : priority_after []
                 (P.mk (Obs:=Obs) c a b i e [] (replicate (Z.to_nat c) 0%R) 0)).
  { split; [exact Hr|]. unfold len. simpl.
    repeat split; try lia. intros k x _ Hk. rewrite lookup_nil in Hk.
    discriminate. }
  destruct (priority_after_pushes items [] _ Ha)
    as (self & Hp & Hcap & (_ & Hpos & _ & Hold)).
  simpl in Hcap. rewrite Hcap in *. simpl app in *.
  exists self. split; [exact Hp|]. split; [exact Hpos|]. exact Hold.
Qed.

Lemma uniform_ring_contents_witness :
  exists self,
    RBS.pushes [(demo_transition, Some 0); (demo_transition, Some 1);
                (demo_transition, Some 2)] (RB.mk 2 [] 0) = (self, Ok tt) /\
    RB.pos self
      = len [(demo_transition, Some 0); (demo_transition, Some 1);
             (demo_transition, Some 2)] mod 2 /\
    Forall (fun o => o <> None) (RB.buffer self) /\
    forall (i : nat) (item : Transition nat * option Z),
      len [(demo_transition, Some 0); (demo_transition, Some 1);
           (demo_transition, Some 2)] - 2 <= Z.of_nat i ->
      [(demo_transition, Some 0); (demo_transition, Some 1);
       (demo_transition, Some 2)] !! i = Some item ->
      RB.buffer self !! ring_slot 2 i = Some (Some (entry_of item)).
Proof.
  apply (uniform_ring_contents 2
           [(demo_transition, Some 0); (demo_transition, Some 1);
            (demo_transition, Some 2)] (RB.mk 2 [] 0)).
  - lia.
  - reflexivity.
Defined.

Lemma priority_ring_contents_witness :
  exists self,
    PS.pushes (replicate 5 demo_transition)
      (P.mk 2 P.default_alpha P.default_beta
            P.default_beta_increment_per_sampling P.default_epsilon
            [] (replicate (Z.to_nat 2) 0%R) 0) = (self, Ok tt) /\
    P.pos self = len (replicate 5 demo_transition) mod 2 /\
    forall (k : nat) (data : Transition nat),
      len (replicate 5 demo_transition) - 2 <= Z.of_nat k ->
      replicate 5 demo_transition !! k = Some data ->
      P.memory self !! ring_slot 2 k = Some data.
Proof.
  apply (priority_ring_contents 2 P.default_alpha P.default_beta
           P.default_beta_increment_per_sampling P.default_epsilon
           (replicate 5 demo_transition)).
  - lia.
  - reflexivity.
Defined.

(** ** Sampling from the uniform buffer *)

Lemma remove_at_perm {A : Type} (pool : list A) (i : nat) (x : A) :
  pool !! i = Some x -> pool ≡ₚ x :: remove_at i pool.
Proof.
  intros Hi. unfold remove_at.
  rewrite <- (take_drop_middle pool i x Hi) at 1.
  symmetry. apply Permutation_middle.
Qed.

Lemma remove_at_length {A : Type} (pool : list A) (i : nat) (x : A) :
  pool !! i = Some x -> S (length (remove_at i pool)) = length pool.
Proof.
  intros Hi. rewrite (Permutation_length (remove_at_perm pool i x Hi)).
  reflexivity.
Qed.

(** The draws of [random.sample] are taken from distinct positions: as a
    multiset they are contained in the population. *)
Lemma draw_distinct_submseteq {A : Type} (u : nat -> nat) (k j : nat)
  (pool : list A) :
  draw_distinct u j pool k ⊆+ pool.
Proof.
  revert j pool. induction k as [|k IH]; intros j pool; simpl.
  - apply submseteq_nil_l.
  - destruct (pool !! (u j mod length pool)%nat) as [x|] eqn:E.
    + transitivity (x :: remove_at (u j mod length pool)%nat pool).
      * apply submseteq_skip. apply IH.
      * apply Permutation_submseteq. symmetry. apply remove_at_perm. exact E.
    + apply submseteq_nil_l.
Qed.

Lemma draw_distinct_length {A : Type} (u : nat -> nat) (k j : nat)
  (pool : list A) :
  (k <= length pool)%nat -> length (draw_distinct u j pool k) = k.
Proof.
  revert j pool. induction k as [|k IH]; intros j pool Hk; simpl.
  - reflexivity.
  - assert (Hlt : (u j mod length pool < length pool)%nat)
      by (apply Nat.mod_upper_bound; lia).
    destruct (lookup_lt_is_Some_2 pool _ Hlt) as [x E]. rewrite E. simpl.
    f_equal. apply IH. pose proof (remove_at_length pool _ x E). lia.
Qed.

Lemma all_some_map {A : Type} (l : list (option A)) :
  Forall (fun o => o <> None) l -> exists l', l = map Some l'.
Proof.
  induction 1 as [|o l Ho _ [l' ->]].
  - exists []. reflexivity.
  - destruct o as [x|]; [|congruence]. exists (x :: l'). reflexivity.
Qed.

Lemma zip_star_rows {Obs : Type} (rows : list (RB.Entry Obs)) :
  rows <> [] ->
  RB.zip_star (map Some rows)
    = Ok (RB.mkColumns
            (map (fun e => state (RB.transition e)) rows)
            (map (fun e => action (RB.transition e)) rows)
            (map (fun e => reward (RB.transition e)) rows)
            (map (fun e => next_state (RB.transition e)) rows)
            (map (fun e => done (RB.transition e)) rows)
            (map RB.next_action rows)).
Proof.
  intros Hne. unfold RB.zip_star.
  set (unpack := fun o : option (RB.Entry Obs) =>
                   match o with Some e => Ok e | None => Raise TypeError end).
  assert (H : map_outcome unpack (map Some rows) = Ok rows).
  { clear Hne. induction rows as [|r rows IH]; simpl; [reflexivity|].
    rewrite IH. reflexivity. }
  rewrite H. destruct rows; [congruence|reflexivity].
Qed.

(** X3.  From a buffer without empty slots, whose stored actions are
    64-bit integers, [ReplayBuffer.sample] asked for
    [0 < batch_size <= len] items returns that many rows, taken from
    distinct slots (as a multiset the rows are contained in the buffer),
    and leaves the buffer unchanged; the columns of the batch are the
    fields of these rows. *)
Theorem uniform_sample_distinct_rows {Obs : Type} (u : nat -> nat)
  (batch_size : Z) (self : RB.t Obs) :
  Forall (fun o => o <> None) (RB.buffer self) ->
  int64_entries (RB.buffer self) ->
  0 < batch_size <= RB.__len__ self ->
  exists rows batch,
    RB.sample u batch_size self = (self, Ok batch) /\
    map Some rows ⊆+ RB.buffer self /\
    len rows = batch_size /\
    RB.states batch = map (fun e => state (RB.transition e)) rows /\
    RB.actions batch = map (fun e => action (RB.transition e)) rows /\
    RB.rewards batch = map (fun e => reward (RB.transition e)) rows /\
    RB.next_states batch = map (fun e => next_state (RB.transition e)) rows /\
    RB.dones batch
      = map (fun e => float_of_bool (done (RB.transition e))) rows.
Proof.
  intros Hsome Hint [Hk Hle]. unfold RB.__len__ in Hle.
  destruct (all_some_map _ Hsome) as [all Hall].
  assert (Hlen : len (RB.buffer self) = len all)
    by (rewrite Hall; unfold len; rewrite length_map; reflexivity).
  set (rows := draw_distinct u 0 all (Z.to_nat batch_size)).
  assert (Hrows : length rows = Z.to_nat batch_size).
  { apply draw_distinct_length. unfold len in *. lia. }
  assert (Hne : rows <> []).
  { intros E. rewrite E in Hrows. simpl in Hrows. lia. }
  assert (Hacts : Forall (fun z => - 2 ^ 63 <= z < 2 ^ 63)
                    (map (fun e => action (RB.transition e)) rows)).
  { apply Forall_map. apply Forall_forall. intros e He. simpl.
    unfold int64_entries in Hint. rewrite Forall_forall in Hint.
    apply (Hint (Some e)); [|reflexivity]. rewrite Hall.
    apply list_elem_of_In, in_map, list_elem_of_In.
    eapply elem_of_submseteq; [exact He|]. apply draw_distinct_submseteq. }
  exists rows. eexists. split; [|split; [|split]].
  - unfold RB.sample. py_unfold. unfold random_sample.
    destruct (0 <=? batch_size) eqn:E1; [|lia].
    destruct (batch_size <=? len (RB.buffer self)) eqn:E2; [|lia]. simpl.
    rewrite Hall, RBF.draw_distinct_map. fold rows.
    rewrite (zip_star_rows rows Hne). simpl RB.col_actions.
    rewrite !(torch_tensor_long_in_range _ Hacts). reflexivity.
  - rewrite Hall.
    change (map Some ?l) with (fmap (M:=list) Some l).
    apply fmap_submseteq. apply draw_distinct_submseteq.
  - unfold len. lia.
  - simpl. unfold torch_stack, torch_tensor_float.
    rewrite map_map. repeat split; reflexivity.
Qed.

Lemma uniform_sample_distinct_rows_witness :
  exists rows batch,
    RB.sample (fun _ => 0%nat) 1 demo_uniform = (demo_uniform, Ok batch) /\
    map Some rows ⊆+ RB.buffer demo_uniform /\
    len rows = 1 /\
    RB.states batch = map (fun e => state (RB.transition e)) rows /\
    RB.actions batch = map (fun e => action (RB.transition e)) rows /\
    RB.rewards batch = map (fun e => reward (RB.transition e)) rows /\
    RB.next_states batch = map (fun e => next_state (RB.transition e)) rows /\
    RB.dones batch
      = map (fun e => float_of_bool (done (RB.transition e))) rows.
Proof.
  apply (uniform_sample_distinct_rows (fun _ => 0%nat) 1 demo_uniform).
  - repeat constructor. discriminate.
  - constructor; [|constructor]. intros e He. injection He as <-.
    simpl. lia.
  - unfold RB.__len__, demo_uniform, len. simpl. lia.
Defined.

(** X4.  A call of [sample] for no item or for a negative number of items
    raises [ValueError], in the three classes, and leaves the buffer as it
    was. *)
Theorem sample_nothing_raises {Obs : Type} (u : nat -> nat) (batch_size : Z)
  (ub : RB.t Obs) (pb : P.t Obs) (nb : NS.t Obs) :
  batch_size <= 0 ->
  RB.sample u batch_size ub = (ub, Raise ValueError) /\
  P.sample u batch_size pb = (pb, Raise ValueError) /\
  NS.sample u batch_size nb = (nb, Raise ValueError).
Proof.
  intros Hk.
  assert (Hp : forall s : P.t Obs,
             P.sample u batch_size s = (s, Raise ValueError)).
  { intros s. unfold P.sample. py_unfold. unfold np_random_choice.
    destruct (len (P.memory s) <=? 0); [reflexivity|].
    destruct (negb (len (P.sampling_probs s) =? len (P.memory s)));
      [reflexivity|].
    destruct (batch_size <? 0) eqn:E; [reflexivity|].
    apply Z.ltb_ge in E. replace batch_size with 0 by lia. reflexivity. }
  split; [|split].
  - unfold RB.sample. py_unfold. unfold random_sample.
    destruct (0 <=? batch_size) eqn:E; [|reflexivity].
    apply Z.leb_le in E. replace batch_size with 0 by lia. simpl.
    destruct (0 <=? len (RB.buffer ub)); reflexivity.
  - apply Hp.
  - unfold NS.sample, NS.on_store. rewrite Hp. destruct nb. reflexivity.
Qed.

Lemma sample_nothing_raises_witness :
  RB.sample (fun _ => 0%nat) 0 demo_uniform = (demo_uniform, Raise ValueError) /\
  P.sample (fun _ => 0%nat) 0 demo_store = (demo_store, Raise ValueError) /\
  NS.sample (fun _ => 0%nat) 0 demo_nstep = (demo_nstep, Raise ValueError).
Proof.
  apply (sample_nothing_raises (fun _ => 0%nat) 0
           demo_uniform demo_store demo_nstep).
  lia.
Defined.

(** ** Sampled indices and priority updates *)

Lemma map_outcome_lookup {A B : Type} (f : A -> outcome B) (l : list A)
  (ys : list B) (i : nat) (x : A) :
  map_outcome f l = Ok ys -> l !! i = Some x ->
  exists y, ys !! i = Some y /\ f x = Ok y.
Proof.
  revert ys i. induction l as [|a l IH]; intros ys i H Hi.
  - rewrite lookup_nil in Hi. discriminate.
  - simpl in H. destruct (f a) as [b|] eqn:Ea; [|discriminate].
    destruct (map_outcome f l) as [zs|] eqn:Ez; [|discriminate].
    inversion H; subst ys. destruct i as [|i]; simpl in *.
    + inversion Hi; subst. exists b. split; [reflexivity|exact Ea].
    + apply (IH zs i eq_refl Hi).
Qed.

(** X5.  The indices that [sample] returns name the memory slots of the
    rows of the batch: each index is below the length, and the [i]-th
    entry of every column is the field of the transition stored at the
    [i]-th index.  Passed back to [update_priorities], with any list of
    priorities, they are all accepted. *)
Theorem sampled_indices_address_rows {Obs : Type} (u : nat -> nat)
  (batch_size : Z) (self self' : P.t Obs) (batch : P.Batch Obs) :
  PS.ring self ->
  P.sample u batch_size self = (self', Ok batch) ->
  (forall (i : nat) (idx : Z),
     P.indices batch !! i = Some idx ->
     0 <= idx < P.__len__ self /\
     exists t,
       P.memory self !! Z.to_nat idx = Some t /\
       P.states batch !! i = Some (state t) /\
       P.actions batch !! i = Some (action t) /\
       P.rewards batch !! i = Some (reward t) /\
       P.next_states batch !! i = Some (next_state t) /\
       P.dones batch !! i = Some (float_of_bool (done t))) /\
  (forall new_prior : list R,
     exists self'',
       P.update_priorities (P.indices batch) new_prior self'
         = (self'', Ok tt)).
Proof.
  intros Hr Hs. pose proof (PF.sample_spec u batch_size self) as Hspec.
  rewrite Hs in Hspec.
  destruct Hspec as (Hself' & smp & raw & wmax & Hc & Hg & _ & _ & _ & _
                     & Hst & Hac & Hrw & Hns & Hdn).
  destruct (PF.choice_in_range _ _ _ _ _ Hc) as (Hin & _).
  split.
  - intros i idx Hi. rewrite Forall_forall in Hin.
    assert (Hrange : 0 <= idx < len (P.memory self)).
    { apply Hin. apply list_elem_of_lookup. eauto. }
    split; [exact Hrange|].
    destruct (map_outcome_lookup _ _ _ _ _ Hg Hi) as (t & Ht & Hget).
    destruct (getitem_nonneg (P.memory self) idx Hrange) as (t' & Hget' & Hlook).
    rewrite Hget in Hget'. inversion Hget'; subst t'.
    exists t. split; [exact Hlook|].
    rewrite Hst, Hac, Hrw, Hns, Hdn.
    change (map ?f smp) with (fmap (M:=list) f smp).
    rewrite !list_lookup_fmap, Ht. repeat split; reflexivity.
  - intros new_prior. apply PF.update_priorities_returns.
    rewrite Hself'. simpl.
    destruct Hr as (_ & Hp & Hle & _).
    eapply Forall_impl; [exact Hin|]. intros idx Hidx. simpl in Hidx. lia.
Qed.

Lemma sampled_indices_address_rows_witness :
  exists self' batch,
    P.sample (fun _ => 0%nat) 2 demo_store = (self', Ok batch) /\
    (forall (i : nat) (idx : Z),
       P.indices batch !! i = Some idx ->
       0 <= idx < P.__len__ demo_store /\
       exists t,
         P.memory demo_store !! Z.to_nat idx = Some t /\
         P.states batch !! i = Some (state t) /\
         P.actions batch !! i = Some (action t) /\
         P.rewards batch !! i = Some (reward t) /\
         P.next_states batch !! i = Some (next_state t) /\
         P.dones batch !! i = Some (float_of_bool (done t))) /\
    (forall new_prior : list R,
       exists self'',
         P.update_priorities (P.indices batch) new_prior self'
           = (self'', Ok tt)).
Proof.
  eexists. eexists. split; [py_eval; reflexivity|].
  apply (sampled_indices_address_rows (fun _ => 0%nat) 2 demo_store).
  - exact demo_store_ring.
  - py_eval. reflexivity.
Defined.

(** X6.  After a call of [update_priorities] that returns, the slot
    addressed by an index holds the priority paired with it, unless a later
    index of the call addresses the same slot: the last write wins. *)
Theorem update_priorities_last_write {Obs : Type} (indicies : list Z)
  (new_prior : list R) (self self' : P.t Obs) (k : nat) (idx : Z) (p : R)
  (j : nat) :
  (length indicies <= length new_prior)%nat ->
  P.update_priorities indicies new_prior self = (self', Ok tt) ->
  indicies !! k = Some idx -> new_prior !! k = Some p ->
  py_index (length (P.priorities self)) idx = Some j ->
  (forall (k' : nat) (idx' : Z),
     (k < k')%nat -> indicies !! k' = Some idx' ->
     py_index (length (P.priorities self)) idx' <> Some j) ->
  P.priorities self' !! j = Some p.
Proof.
  revert new_prior self k.
  induction indicies as [|idx0 indicies IH];
    intros new_prior self k Hlen Hup Hk Hp Hj Hlater.
  - rewrite lookup_nil in Hk. discriminate.
  - destruct new_prior as [|p0 new_prior]; [simpl in Hlen; lia|].
    destruct (py_index (length (P.priorities self)) idx0) as [j0|] eqn:E0.
    + rewrite (update_priorities_cons _ _ _ _ _ _ E0) in Hup.
      destruct k as [|k]; simpl in Hk, Hp.
      * inversion Hk; subst idx0. inversion Hp; subst p0.
        rewrite Hj in E0. inversion E0; subst j0.
        destruct (PF.update_priorities_frame _ _ _ _ _ Hup) as (_ & _ & Hframe).
        rewrite Hframe.
        -- simpl. apply list_lookup_insert_eq.
           apply (py_index_Some_lt _ _ _ Hj).
        -- intros idx' Hin. simpl. rewrite length_insert.
           apply list_elem_of_In, list_elem_of_lookup in Hin.
           destruct Hin as [k' Hk'].
           apply (Hlater (S k') idx'); [lia|exact Hk'].
      * eapply (IH new_prior);
          [simpl in Hlen; lia|exact Hup|exact Hk|exact Hp| |].
        -- simpl. rewrite length_insert. exact Hj.
        -- intros k' idx' Hlt Hk'. simpl. rewrite length_insert.
           apply (Hlater (S k') idx'); [lia|exact Hk'].
    + rewrite (update_priorities_cons_out _ _ _ _ _ E0) in Hup. discriminate.
Qed.

Lemma update_priorities_last_write_witness :
  P.update_priorities [2; 0; 2] [5%R; 6%R; 7%R] demo_store
    = (P.set_priorities [6%R; 0%R; 7%R; 0%R] demo_store, Ok tt) /\
  P.priorities (P.set_priorities [6%R; 0%R; 7%R; 0%R] demo_store) !! 2%nat
    = Some 7%R.
Proof.
  split; [py_eval; reflexivity|].
  apply (update_priorities_last_write [2; 0; 2] [5%R; 6%R; 7%R] demo_store
           (P.set_priorities [6%R; 0%R; 7%R; 0%R] demo_store)
           2%nat 2 7%R 2%nat).
  - simpl. lia.
  - py_eval. reflexivity.
  - reflexivity.
  - reflexivity.
  - reflexivity.
  - intros k' idx' Hlt Hk'.
    destruct k' as [|[|[|k']]]; simpl in Hk'; try lia. discriminate.
Defined.

(** X7.  [update_priorities] pairs indices and priorities with [zip]:
    what is left over of the longer list is never read, so that a surplus
    index, even one out of range, raises nothing. *)
Theorem update_priorities_ignores_unpaired {Obs : Type} (indicies more_idx : list Z)
  (new_prior more_prior : list R) (self : P.t Obs) :
  ((length new_prior <= length indicies)%nat ->
   P.update_priorities (indicies ++ more_idx) new_prior self
     = P.update_priorities indicies new_prior self) /\
  ((length indicies <= length new_prior)%nat ->
   P.update_priorities indicies (new_prior ++ more_prior) self
     = P.update_priorities indicies new_prior self).
Proof.
  unfold P.update_priorities. split; intros Hlen; f_equal.
  - revert new_prior Hlen. induction indicies as [|i l IH];
      intros [|p ps] Hlen; simpl in *; try reflexivity; try lia.
    + destruct more_idx; reflexivity.
    + f_equal. apply IH. lia.
  - revert new_prior Hlen. induction indicies as [|i l IH];
      intros [|p ps] Hlen; simpl in *; try reflexivity; try lia.
    f_equal. apply IH. lia.
Qed.

Lemma update_priorities_ignores_unpaired_witness :
  P.update_priorities ([0] ++ [99]) [5%R] demo_store
    = P.update_priorities [0] [5%R] demo_store.
Proof.
  apply (update_priorities_ignores_unpaired [0] [99] [5%R] [] demo_store).
  simpl. lia.
Defined.

(** X8.  [update_priorities] does not undo what it wrote when it fails:
    at the first index out of range it raises [IndexError] and leaves the
    priorities as the pairs before that index have set them. *)
Theorem update_priorities_stops_at_bad_index {Obs : Type} (good rest : list Z)
  (bad : Z) (new_prior : list R) (self : P.t Obs) :
  Forall (fun idx => - len (P.priorities self) <= idx < len (P.priorities self))
         good ->
  bad < - len (P.priorities self) \/ len (P.priorities self) <= bad ->
  (length (good ++ bad :: rest) <= length new_prior)%nat ->
  exists self1,
    P.update_priorities good (take (length good) new_prior) self
      = (self1, Ok tt) /\
    P.update_priorities (good ++ bad :: rest) new_prior self
      = (self1, Raise IndexError).
Proof.
  revert new_prior self. induction good as [|g good IH];
    intros new_prior self Hgood Hbad Hlen.
  - destruct new_prior as [|p ps]; [simpl in Hlen; lia|].
    exists self. split; [reflexivity|]. simpl.
    apply update_priorities_cons_out. apply py_index_out. exact Hbad.
  - destruct new_prior as [|p ps]; [simpl in Hlen; lia|].
    apply Forall_cons in Hgood. destruct Hgood as [Hg Hgood].
    assert (Hj : exists j, py_index (length (P.priorities self)) g = Some j).
    { unfold len in Hg. destruct (Z_lt_ge_dec g 0).
      - rewrite py_index_neg by lia. eauto.
      - rewrite py_index_nonneg by lia. eauto. }
    destruct Hj as [j Hj]. simpl.
    rewrite !(update_priorities_cons _ _ _ _ _ _ Hj).
    apply IH.
    + simpl. unfold len in *. rewrite length_insert. exact Hgood.
    + simpl. unfold len in *. rewrite length_insert. exact Hbad.
    + simpl in Hlen. lia.
Qed.

Lemma update_priorities_stops_at_bad_index_witness :
  exists self1,
    P.update_priorities [1] (take (length [1]) [5%R; 6%R; 7%R]) demo_store
      = (self1, Ok tt) /\
    P.update_priorities ([1] ++ 4 :: [2]) [5%R; 6%R; 7%R] demo_store
      = (self1, Raise IndexError).
Proof.
  apply (update_priorities_stops_at_bad_index [1] [2] 4 [5%R; 6%R; 7%R]
           demo_store).
  - repeat constructor; unfold len; simpl; lia.
  - right. unfold len. simpl. lia.
  - simpl. lia.
Defined.

(** ** The sampling distribution *)

Lemma np_sum_div (l : list R) (s : R) :
  np_sum (map (fun p => (p / s)%R) l) = (np_sum l / s)%R.
Proof.
  unfold np_sum. induction l as [|x l IH]; simpl.
  - unfold Rdiv. rewrite Rmult_0_l. reflexivity.
  - rewrite IH. unfold Rdiv. rewrite Rmult_plus_distr_r. reflexivity.
Qed.

Lemma np_sum_pos (l : list R) :
  l <> [] -> Forall (fun x => (0 < x)%R) l -> (0 < np_sum l)%R.
Proof.
  intros Hne Hall. unfold np_sum. induction Hall as [|x l Hx Hall IH].
  - congruence.
  - simpl. destruct l as [|y l].
    + simpl. lra.
    + assert (0 < fold_right Rplus 0 (y :: l))%R by (apply IH; discriminate).
      lra.
Qed.

Lemma np_sum_ge (l : list R) (x : R) :
  Forall (fun y => (0 < y)%R) l -> In x l -> (x <= np_sum l)%R.
Proof.
  intros Hall. unfold np_sum. induction Hall as [|y l Hy Hall IH]; simpl.
  - intros [].
  - intros [->|Hin].
    + destruct l as [|z l]; [simpl; lra|].
      assert (0 < np_sum (z :: l))%R by (apply np_sum_pos; [discriminate|exact Hall]).
      unfold np_sum in *. lra.
    + specialize (IH Hin). lra.
Qed.

(** The numerators of the sampling distribution. *)
Lemma raw_probs_pos {Obs : Type} (self : P.t Obs) :
  Forall (fun x => (0 < x)%R)
    (map (fun p => np_power (p + P.epsilon self) (P.alpha self))
         (P.valid_priorities self)).
Proof.
  apply Forall_forall. intros x Hx.
  apply list_elem_of_In, in_map_iff in Hx. destruct Hx as (p & <- & _).
  unfold np_power, Rpower. apply exp_pos.
Qed.

Lemma sampling_probs_normalised {Obs : Type} (self : P.t Obs) :
  PS.ring self -> P.memory self <> [] ->
  len (P.sampling_probs self) = P.__len__ self /\
  Forall (fun q => (0 < q <= 1)%R) (P.sampling_probs self) /\
  np_sum (P.sampling_probs self) = 1%R.
Proof.
  intros Hr Hne. split; [apply PF.sampling_probs_len; exact Hr|].
  pose proof (raw_probs_pos self) as Hpos.
  unfold P.sampling_probs.
  set (raw := map (fun p => np_power (p + P.epsilon self) (P.alpha self))
                  (P.valid_priorities self)) in *.
  assert (Hraw : raw <> []).
  { intros E. apply (f_equal length) in E. unfold raw in E.
    rewrite length_map in E.
    pose proof (PF.valid_priorities_len self Hr) as Hl. unfold len in Hl.
    simpl in E. destruct (P.memory self); [congruence|]. simpl in Hl. lia. }
  pose proof (np_sum_pos raw Hraw Hpos) as Hs.
  split.
  - apply Forall_forall. intros q Hq.
    apply list_elem_of_In, in_map_iff in Hq. destruct Hq as (x & <- & Hx).
    pose proof (np_sum_ge raw x Hpos Hx) as Hle.
    rewrite Forall_forall in Hpos.
    pose proof (Hpos x (proj2 (list_elem_of_In _ _) Hx)) as Hx0.
    split.
    + apply Rdiv_lt_0_compat; assumption.
    + apply (Rmult_le_reg_r (np_sum raw)); [exact Hs|].
      unfold Rdiv. rewrite Rmult_assoc, Rinv_l by lra. lra.
  - rewrite np_sum_div. field. lra.
Qed.

(** X9.  With a stored transition, the probabilities that [sample] gives
    [np.random.choice] are a distribution over the stored transitions:
    one per transition, each in [(0, 1]], summing to 1. *)
Theorem sampling_probs_distribution {Obs : Type} (self : P.t Obs) :
  PS.ring self -> P.memory self <> [] -> positive_bases self ->
  len (P.sampling_probs self) = P.__len__ self /\
  Forall (fun q => (0 < q <= 1)%R) (P.sampling_probs self) /\
  np_sum (P.sampling_probs self) = 1%R.
Proof.
  intros Hr Hne _. apply sampling_probs_normalised; assumption.
Qed.

Lemma sampling_probs_distribution_witness :
  len (P.sampling_probs demo_store) = P.__len__ demo_store /\
  Forall (fun q => (0 < q <= 1)%R) (P.sampling_probs demo_store) /\
  np_sum (P.sampling_probs demo_store) = 1%R.
Proof.
  apply (sampling_probs_distribution demo_store).
  - exact demo_store_ring.
  - discriminate.
  - exact demo_store_positive_bases.
Defined.



(** A list whose entries are all [v] holds [v] at each of its
    positions. *)
Lemma Forall_eq_lookup {A : Type} (v : A) (l : list A) (k : nat) :
  Forall (fun x => x = v) l -> (k < length l)%nat -> l !! k = Some v.
Proof.
  intros Hall Hk. destruct (lookup_lt_is_Some_2 l k Hk) as [x Hx].
  rewrite Hx. f_equal. rewrite Forall_forall in Hall. apply Hall.
  apply list_elem_of_lookup. eauto.
Qed.

(** The distribution computed from equal powers [w] is the uniform one. *)
Lemma sampling_probs_equal_powers {Obs : Type} (self : P.t Obs) (w : R) :
  PS.ring self -> (0 < w)%R ->
  Forall (fun p => np_power (p + P.epsilon self) (P.alpha self) = w)
         (P.valid_priorities self) ->
  len (P.sampling_probs self) = P.__len__ self /\
  forall (k : nat) (t : Transition Obs),
    P.memory self !! k = Some t ->
    P.sampling_probs self !! k = Some (1 / IZR (P.__len__ self))%R.
Proof.
  intros Hr Hw Hv.
  pose proof (PF.sampling_probs_len self Hr) as Hlen.
  split; [exact Hlen|]. intros k t Hk.
  apply Forall_eq_lookup;
    [|apply lookup_lt_Some in Hk; unfold len in Hlen; lia].
  assert (Hn : (0 < IZR (P.__len__ self))%R).
  { apply IZR_lt. unfold P.__len__, len. apply lookup_lt_Some in Hk. lia. }
  unfold P.sampling_probs.
  assert (Hraw : map (fun p => np_power (p + P.epsilon self) (P.alpha self))
                     (P.valid_priorities self)
                 = map (fun _ => w) (P.valid_priorities self)).
  { apply map_ext_in. intros p Hp. rewrite Forall_forall in Hv.
    apply Hv, list_elem_of_In. exact Hp. }
  rewrite Hraw.
  assert (Hsum : forall l : list R,
             np_sum (map (fun _ => w) l) = (IZR (len l) * w)%R).
  { induction l as [|x l IHl].
    - unfold np_sum, len. simpl. ring.
    - unfold np_sum in *. simpl. rewrite IHl. unfold len. simpl length.
      rewrite Nat2Z.inj_succ, succ_IZR. ring. }
  rewrite Hsum, (PF.valid_priorities_len self Hr).
  fold (P.__len__ self).
  apply Forall_forall. intros q Hq.
  apply list_elem_of_In, in_map_iff in Hq. destruct Hq as (x & <- & Hx).
  apply in_map_iff in Hx. destruct Hx as (p & <- & _).
  field. split; lra.
Qed.

(** X11.  With [alpha = 0] the draw is uniform: the distribution has one
    entry per stored transition, and the entry of every stored transition
    is [1 / len]. *)
Theorem sampling_probs_uniform {Obs : Type} (self : P.t Obs) :
  PS.ring self -> P.alpha self = 0%R ->
  len (P.sampling_probs self) = P.__len__ self /\
  forall (k : nat) (t : Transition Obs),
    P.memory self !! k = Some t ->
    P.sampling_probs self !! k = Some (1 / IZR (P.__len__ self))%R.
Proof.
  intros Hr Ha. apply (sampling_probs_equal_powers self 1%R Hr); [lra|].
  apply Forall_forall. intros p _. rewrite Ha.
  unfold np_power, Rpower. rewrite Rmult_0_l. apply exp_0.
Qed.

Lemma sampling_probs_uniform_witness :
  len (P.sampling_probs (P.mk 4 0 0 0 0 [demo_transition; demo_transition]
                              [1%R; 5%R; 0%R; 0%R] 2)) = 2 /\
  P.sampling_probs (P.mk 4 0 0 0 0 [demo_transition; demo_transition]
                         [1%R; 5%R; 0%R; 0%R] 2) !! 1%nat
    = Some (1 / IZR 2)%R.
Proof.
  destruct (sampling_probs_uniform
              (P.mk 4 0 0 0 0 [demo_transition; demo_transition]
                    [1%R; 5%R; 0%R; 0%R] 2)) as [Hlen Hp].
  - unfold PS.ring, len. simpl. lia.
  - reflexivity.
  - split; [exact Hlen|]. apply (Hp 1%nat demo_transition). reflexivity.
Defined.

Lemma demo_store2_built :
  exists self0,
    P.__init__ 4 P.default_alpha P.default_beta
      P.default_beta_increment_per_sampling P.default_epsilon = Ok self0 /\
    (P.push demo_transition ;; P.push demo_transition ;;
     P.update_priorities [1] [2%R]) self0 = (demo_store2, Ok tt).
Proof.
  eexists. split; [reflexivity|]. py_eval. reflexivity.
Qed.




(** ** Importance-sampling weights *)

(** The weights of a returned batch, entry by entry. *)
Lemma sample_weight_lookup {Obs : Type} (u : nat -> nat) (batch_size : Z)
  (self self' : P.t Obs) (batch : P.Batch Obs) :
  P.sample u batch_size self = (self', Ok batch) ->
  exists wmax,
    (0 < wmax)%R /\
    forall (i : nat) (idx : Z),
      P.indices batch !! i = Some idx ->
      0 <= idx < len (P.memory self) /\
      exists q,
        np_getitem (P.sampling_probs self) idx = Ok q /\
        P.weights batch !! i
          = Some (np_power (IZR (len (P.memory self)) * q) (- P.beta self)
                  / wmax)%R.
Proof.
  intros Hs. pose proof (PF.sample_spec u batch_size self) as Hspec.
  rewrite Hs in Hspec.
  destruct Hspec as (_ & smp & raw & wmax & Hc & _ & _ & Hraw & Hmax & Hw & _).
  destruct (PF.choice_in_range _ _ _ _ _ Hc) as (Hin & _).
  unfold P.raw_weights in Hraw.
  destruct (map_outcome (np_getitem (P.sampling_probs self)) (P.indices batch))
    as [picked|] eqn:Hpk; [|discriminate].
  inversion Hraw as [Hr]. clear Hraw.
  exists wmax. split.
  - apply np_max_is_max in Hmax. destruct Hmax as [Hm _].
    rewrite <- Hr in Hm. apply in_map_iff in Hm. destruct Hm as (p & <- & _).
    unfold np_power, Rpower. apply exp_pos.
  - intros i idx Hi. split.
    + rewrite Forall_forall in Hin. apply Hin.
      apply list_elem_of_lookup. eauto.
    + destruct (map_outcome_lookup _ _ _ _ _ Hpk Hi) as (q & Hq & Hget).
      exists q. split; [exact Hget|].
      rewrite Hw, <- Hr.
      change (map ?f ?l) with (fmap (M:=list) f l).
      rewrite !list_lookup_fmap, Hq. reflexivity.
Qed.

(** X12.  With [beta = 0] there is no correction: every weight of a
    returned batch is 1. *)
Theorem weights_without_correction {Obs : Type} (u : nat -> nat)
  (batch_size : Z) (self self' : P.t Obs) (batch : P.Batch Obs) :
  P.beta self = 0%R ->
  P.sample u batch_size self = (self', Ok batch) ->
  Forall (fun w => w = 1%R) (P.weights batch).
Proof.
  intros Hb Hs.
  destruct (PF.sample_weights u batch_size self self' batch Hs) as [Hone _].
  destruct (sample_weight_lookup u batch_size self self' batch Hs)
    as (wmax & Hpos & Hw).
  assert (Hraw : forall x, np_power x (- P.beta self) = 1%R).
  { intros x. rewrite Hb. unfold np_power, Rpower.
    rewrite Ropp_0, Rmult_0_l. apply exp_0. }
  assert (Hlen : length (P.weights batch) = length (P.indices batch)).
  { pose proof (PF.sample_spec u batch_size self) as Hspec. rewrite Hs in Hspec.
    destruct Hspec as (_ & smp & raw & wm & _ & _ & _ & Hr & _ & Hwb & _).
    rewrite Hwb, length_map. unfold P.raw_weights in Hr.
    destruct (map_outcome _ _) as [picked|] eqn:Hpk; [|discriminate].
    inversion Hr. rewrite length_map.
    apply (map_outcome_length _ _ _ Hpk). }
  assert (Hall : Forall (fun w => w = (1 / wmax)%R) (P.weights batch)).
  { apply Forall_lookup. intros i w Hi.
    destruct (lookup_lt_is_Some_2 (P.indices batch) i) as [idx Hidx].
    { rewrite <- Hlen. apply lookup_lt_Some in Hi. exact Hi. }
    destruct (Hw i idx Hidx) as (_ & q & _ & Hwi).
    rewrite Hi in Hwi. inversion Hwi. rewrite Hraw. reflexivity. }
  assert (Hm : (1 / wmax = 1)%R).
  { rewrite Forall_forall in Hall. symmetry. apply Hall.
    apply list_elem_of_In. exact Hone. }
  eapply Forall_impl; [exact Hall|]. intros w ->. exact Hm.
Qed.


Lemma weights_without_correction_witness :
  exists self' batch,
    P.sample (fun _ => 0%nat) 2
      (P.mk 4 P.default_alpha 0 0 P.default_epsilon [demo_transition]
            [1%R; 0%R; 0%R; 0%R] 1) = (self', Ok batch) /\
    Forall (fun w => w = 1%R) (P.weights batch).
Proof.
  eexists. eexists. split; [py_eval; reflexivity|].
  eapply (weights_without_correction (fun _ => 0%nat) 2
           (P.mk 4 P.default_alpha 0 0 P.default_epsilon [demo_transition]
                 [1%R; 0%R; 0%R; 0%R] 1)).
  - reflexivity.
  - py_eval. reflexivity.
Defined.


(** ** Annealing of [beta], in closed form *)

Lemma last_cons_default {A : Type} (l : list A) (a d : A) :
  List.last (a :: l) d = List.last l a.
Proof.
  revert a d. induction l as [|x l IH]; intros a d; [reflexivity|].
  change (List.last (a :: x :: l) d) with (List.last (x :: l) d).
  rewrite !IH. reflexivity.
Qed.

Lemma Rmin_clamp_step (b i : R) (n : nat) :
  (0 <= i)%R ->
  Rmin 1 (Rmin 1 (b + i) + INR n * i) = Rmin 1 (b + INR (S n) * i).
Proof.
  intros Hi. rewrite S_INR. pose proof (pos_INR n) as Hn.
  assert (0 <= INR n * i)%R by (apply Rmult_le_pos; assumption).
  unfold Rmin. repeat destruct (Rle_dec _ _); lra.
Qed.

(** X14.  On a store that holds a transition, is as [__init__] and
    [push] leave it, and has actions that are 64-bit integers and
    priorities in the range of [float32], [n] calls of [sample] for a
    positive number of items leave [beta] at
    [min(1, beta + n * beta_increment)]. *)
Theorem beta_after_calls {Obs : Type} (calls : list ((nat -> nat) * Z))
  (self : P.t Obs) :
  PS.ring self -> P.memory self <> [] ->
  int64_actions (P.memory self) -> float32_range self ->
  Forall (fun call => 0 < call.2) calls ->
  (0 <= P.beta_increment self)%R -> (P.beta self <= 1)%R ->
  P.beta (List.last (sample_run calls self) self)
    = Rmin 1 (P.beta self + INR (length calls) * P.beta_increment self).
Proof.
  intros Hr Hne Hact _ Hcalls. revert self Hr Hne Hact.
  induction Hcalls as [|[u k] calls Hk _ IH]; intros self Hr Hne Hact Hi Hb.
  - simpl. rewrite Rmult_0_l, Rplus_0_r. unfold Rmin.
    destruct (Rle_dec 1 (P.beta self)); lra.
  - simpl in Hk.
    destruct (PF.sample_ok u k self Hr) as (batch & Hs & _);
      [|exact Hk|exact Hact|].
    { destruct (P.memory self); [congruence|]. unfold len. simpl. lia. }
    cbn [sample_run]. rewrite Hs. cbn [fst].
    rewrite last_cons_default.
    set (s1 := P.set_beta (Rmin 1 (P.beta self + P.beta_increment self)) self).
    rewrite (IH s1);
      [| exact Hr | exact Hne | exact Hact | exact Hi | apply Rmin_l].
    simpl P.beta. simpl P.beta_increment.
    apply Rmin_clamp_step. exact Hi.
Qed.

Lemma beta_after_calls_witness :
  P.beta (List.last (sample_run [(fun _ => 0%nat, 1); (fun _ => 0%nat, 3)]
                       demo_store) demo_store)
  = Rmin 1 (P.beta demo_store
            + INR (length [(fun _ : nat => 0%nat, 1); (fun _ => 0%nat, 3)])
              * P.beta_increment demo_store).
Proof.
  apply (beta_after_calls [(fun _ => 0%nat, 1); (fun _ => 0%nat, 3)] demo_store).
  - exact demo_store_ring.
  - discriminate.
  - exact demo_store_int64_actions.
  - exact demo_store_float32_range.
  - repeat constructor; simpl; lia.
  - simpl. unfold P.default_beta_increment_per_sampling. lra.
  - simpl. unfold P.default_beta. lra.
Defined.

(** ** The window of the n-step buffer *)

(** Whatever its outcome, [push] has appended to the window. *)
Lemma push_window {Obs : Type} (nstep_arg : Z) (tr : Transition Obs)
  (self self' : NS.t Obs) (o : outcome unit) :
  NS.push nstep_arg tr self = (self', o) ->
  NS.nstep_buffer self' = NSS.window_after self tr /\
  NS.nstep self' = NS.nstep self.
Proof.
  unfold NS.push. py_unfold. simpl. fold (NSS.window_after self tr).
  destruct (len (NSS.window_after self tr) <? NS.nstep self).
  - intros H. inversion H. split; reflexivity.
  - destruct (getitem (NSS.window_after self tr) 0) as [first|].
    + destruct (NS._get_nstep_info _) as [[[r ns] d]|].
      * unfold NS.on_store. simpl.
        destruct (P.push _ _) as [s' o'].
        intros H. inversion H. split; reflexivity.
      * intros H. inversion H. split; reflexivity.
    + intros H. inversion H. split; reflexivity.
Qed.

Lemma deque_append_last {A : Type} (n : nat) (hist : list A) (x : A) :
  (1 <= n)%nat ->
  deque_append (Z.of_nat n) (drop (length hist - n) hist) x
    = drop (length (hist ++ [x]) - n) (hist ++ [x]).
Proof.
  intros Hn. unfold deque_append.
  destruct (Z.of_nat n =? 0) eqn:E0; [lia|].
  rewrite length_app. simpl.
  unfold len. rewrite length_drop.
  destruct (Z.of_nat (length hist - (length hist - n)) =? Z.of_nat n) eqn:E.
  - apply Z.eqb_eq in E. rewrite drop_drop.
    rewrite drop_app_le by lia. f_equal. f_equal. lia.
  - apply Z.eqb_neq in E.
    replace (length hist - n)%nat with 0%nat by lia.
    replace (length hist + 1 - n)%nat with 0%nat by lia. reflexivity.
Qed.

Lemma window_holds_pushes {Obs : Type} (items : list (Z * Transition Obs))
  (hist : list (Transition Obs)) (self : NS.t Obs) :
  window_holds hist self ->
  exists self',
    NSS.pushes items self = (self', Ok tt) /\
    NS.nstep self' = NS.nstep self /\
    window_holds (hist ++ map snd items) self'.
Proof.
  revert hist self. induction items as [|[a tr] items IH]; intros hist self Hw.
  - exists self. simpl. rewrite app_nil_r.
    split; [reflexivity|]. split; [reflexivity|exact Hw].
  - destruct Hw as [Ha Hwin].
    destruct (NSF.push_after_pushes (len hist) self a tr (len_nonneg hist) Ha)
      as (s1 & E1 & A1 & N1 & _).
    destruct (push_window a tr self s1 _ E1) as [W1 _].
    assert (Hw1 : window_holds (hist ++ [tr]) s1).
    { split.
      - rewrite len_app. exact A1.
      - rewrite W1, N1. unfold NSS.window_after. rewrite Hwin.
        destruct Ha as ((_ & Hn & _) & _).
        rewrite <- (deque_append_last (Z.to_nat (NS.nstep self))) by lia.
        rewrite Z2Nat.id by lia. reflexivity. }
    destruct (IH _ _ Hw1) as (s2 & E2 & N2 & W2).
    exists s2. unfold NSS.pushes in *. simpl. unfold bind at 1. rewrite E1.
    split; [exact E2|]. split; [congruence|].
    rewrite <- app_assoc in W2. exact W2.
Qed.

(** X15.  After any run of pushes into a fresh n-step buffer (positive
    capacity, [nstep >= 1]) the window holds the last [nstep] pushed
    transitions, oldest first, or all of them while fewer were pushed. *)
Theorem nstep_window_contents {Obs : Type} (c n : Z) (a b i e : R)
  (items : list (Z * Transition Obs)) (self0 : NS.t Obs) :
  0 < c -> 1 <= n -> NS.__init__ c n a b i e = Ok self0 ->
  exists self,
    NSS.pushes items self0 = (self, Ok tt) /\
    NS.nstep_buffer self
      = drop (length items - Z.to_nat n) (map snd items).
Proof.
  intros Hc Hn H0.
  destruct (NSF.init_after_pushes c n a b i e self0 Hc Hn H0) as (Ha & Hn0 & _).
  assert (Hw : window_holds [] self0).
  { split; [exact Ha|]. destruct Ha as (_ & Hwin & _).
    destruct (NS.nstep_buffer self0); [reflexivity|].
    unfold len in Hwin. simpl in Hwin. lia. }
  destruct (window_holds_pushes items [] self0 Hw) as (self & Hp & Hn1 & _ & Hwin).
  exists self. split; [exact Hp|]. simpl in Hwin.
  rewrite Hwin, Hn1, Hn0, length_map. reflexivity.
Qed.

Lemma nstep_window_contents_witness :
  exists self,
    NSS.pushes [(3, mkTransition 1%nat 0 1%R 2%nat false);
                (3, mkTransition 2%nat 0 1%R 3%nat false);
                (3, mkTransition 3%nat 0 1%R 4%nat false);
                (3, mkTransition 4%nat 0 1%R 5%nat true)]
      (NS.mk (P.mk 8 P.default_alpha P.default_beta
                   P.default_beta_increment_per_sampling P.default_epsilon
                   [] (replicate (Z.to_nat 8) 0%R) 0) 3 []) = (self, Ok tt) /\
    NS.nstep_buffer self
      = drop (length [(3, mkTransition 1%nat 0 1%R 2%nat false);
                      (3, mkTransition 2%nat 0 1%R 3%nat false);
                      (3, mkTransition 3%nat 0 1%R 4%nat false);
                      (3, mkTransition 4%nat 0 1%R 5%nat true)] - Z.to_nat 3)
             (map snd [(3, mkTransition 1%nat 0 1%R 2%nat false);
                       (3, mkTransition 2%nat 0 1%R 3%nat false);
                       (3, mkTransition 3%nat 0 1%R 4%nat false);
                       (3, mkTransition 4%nat 0 1%R 5%nat true)]).
Proof.
  apply (nstep_window_contents 8 3 P.default_alpha P.default_beta
           P.default_beta_increment_per_sampling P.default_epsilon).
  - lia.
  - lia.
  - reflexivity.
Defined.

(** ** The fold of a window *)

Lemma discounted_sum_shift (a : R) (i : nat) (rs : list R) :
  discounted_sum a (S i) rs = (a * discounted_sum a i rs)%R.
Proof.
  revert i. induction rs as [|r rs IH]; intros i; simpl.
  - lra.
  - rewrite IH. simpl. lra.
Qed.

Lemma fold_discounted {Obs : Type} (a : R) (older : list (Transition Obs))
  (last : Transition Obs) :
  fold_right (NS.nstep_fold_step a)
             (reward last, next_state last, done last) older
  = (discounted_sum a 0 (map reward (horizon older last)),
     next_state (NSS.deciding_entry older last),
     done (NSS.deciding_entry older last)).
Proof.
  induction older as [|x older IH]; simpl.
  - unfold NSS.deciding_entry. simpl. f_equal. f_equal. lra.
  - rewrite IH. unfold NS.nstep_fold_step, NSS.deciding_entry. simpl.
    destruct (done x) eqn:Ex; simpl.
    + rewrite Ex. f_equal. f_equal. lra.
    + f_equal. f_equal. rewrite discounted_sum_shift. lra.
Qed.

Lemma horizon_last {Obs : Type} (older : list (Transition Obs))
  (last : Transition Obs) :
  List.last (horizon older last) last = NSS.deciding_entry older last.
Proof.
  unfold NSS.deciding_entry. induction older as [|x older IH]; simpl.
  - reflexivity.
  - destruct (done x) eqn:Ex; [reflexivity|].
    rewrite <- IH. destruct (horizon older last) eqn:Eh; [|reflexivity].
    destruct older; simpl in Eh; [discriminate|].
    destruct (done t); discriminate.
Qed.

(** X16.  [_get_nstep_info] raises [IndexError] on an empty window.  On a
    window [older ++ [last]] it returns the discounted sum
    [r_0 + alpha * r_1 + alpha^2 * r_2 + ...] of the rewards up to the
    first terminal entry of [older] (of all rewards when there is none),
    with the [next_state] and the [done] flag of the entry the sum stops
    at. *)
Theorem get_nstep_info_discounted_sum {Obs : Type} (self : NS.t Obs)
  (older : list (Transition Obs)) (last : Transition Obs) :
  (NS.nstep_buffer self = [] ->
   NS._get_nstep_info self = Raise IndexError) /\
  (NS.nstep_buffer self = older ++ [last] ->
   NS._get_nstep_info self
     = Ok (discounted_sum (NS.alpha self) 0 (map reward (horizon older last)),
           next_state (List.last (horizon older last) last),
           done (List.last (horizon older last) last))).
Proof.
  split.
  - intros E. unfold NS._get_nstep_info. rewrite E. reflexivity.
  - intros E. rewrite (NSF.get_nstep_info_snoc self older last E).
    rewrite fold_discounted, horizon_last. reflexivity.
Qed.

Lemma get_nstep_info_discounted_sum_witness :
  NS._get_nstep_info
    (NS.mk demo_store 3
       ([mkTransition 0%nat 0 1%R 1%nat false;
         mkTransition 1%nat 0 2%R 2%nat true]
        ++ [mkTransition 2%nat 0 4%R 3%nat false]))
  = Ok (discounted_sum P.default_alpha 0 [1%R; 2%R], 2%nat, true).
Proof.
  apply (proj2 (get_nstep_info_discounted_sum
                  (NS.mk demo_store 3
                     ([mkTransition 0%nat 0 1%R 1%nat false;
                       mkTransition 1%nat 0 2%R 2%nat true]
                      ++ [mkTransition 2%nat 0 4%R 3%nat false]))
                  [mkTransition 0%nat 0 1%R 1%nat false;
                   mkTransition 1%nat 0 2%R 2%nat true]
                  (mkTransition 2%nat 0 4%R 3%nat false))).
  reflexivity.
Defined.

(** X17.  A [push] that fills the window stores one transition: the
    [state] and [action] of the oldest entry of the window, the discounted
    sum of the rewards up to the first terminal entry, the [next_state] of
    the entry the sum stops at, and the [done] flag of the transition just
    pushed. *)
Theorem full_window_push {Obs : Type} (self : NS.t Obs) (nstep_arg : Z)
  (tr : Transition Obs) :
  NSS.ring self -> NS.nstep self - 1 <= len (NS.nstep_buffer self) ->
  exists first older max_prior,
    head (NSS.window_after self tr) = Some first /\
    NSS.window_after self tr = older ++ [tr] /\
    NS.push nstep_arg tr self
      = (NS.mk (PS.pushed
                  (mkTransition (state first) (action first)
                     (discounted_sum (NS.alpha self) 0
                        (map reward (horizon older tr)))
                     (next_state (List.last (horizon older tr) tr))
                     (done tr))
                  max_prior (NS.store self))
               (NS.nstep self) (NSS.window_after self tr), Ok tt).
Proof.
  intros Hr Hfull.
  destruct (NSF.push_emits self nstep_arg tr Hr Hfull)
    as (first & info & mp & Hhd & Hinfo & Hpush & _).
  destruct (NSF.window_after_snoc self tr (proj2 Hr)) as (older & Hsnoc & _).
  rewrite (NSF.get_nstep_info_snoc
             (NS.set_nstep_buffer (NSS.window_after self tr) self)
             older tr Hsnoc) in Hinfo.
  rewrite fold_discounted, <- horizon_last in Hinfo.
  inversion Hinfo as [Hi]. rewrite <- Hi in Hpush.
  exists first, older, mp. split; [exact Hhd|split; [exact Hsnoc|exact Hpush]].
Qed.

Lemma full_window_push_witness :
  exists first older max_prior,
    head (NSS.window_after demo_nstep demo_transition) = Some first /\
    NSS.window_after demo_nstep demo_transition = older ++ [demo_transition] /\
    NS.push 1 demo_transition demo_nstep
      = (NS.mk (PS.pushed
                  (mkTransition (state first) (action first)
                     (discounted_sum (NS.alpha demo_nstep) 0
                        (map reward (horizon older demo_transition)))
                     (next_state (List.last (horizon older demo_transition)
                                            demo_transition))
                     (done demo_transition))
                  max_prior (NS.store demo_nstep))
               (NS.nstep demo_nstep)
               (NSS.window_after demo_nstep demo_transition), Ok tt).
Proof.
  apply (full_window_push demo_nstep 1 demo_transition).
  - exact demo_nstep_ring.
  - unfold demo_nstep, len. simpl. lia.
Defined.

(** ** A window of one transition *)

Lemma push_window_of_one {Obs : Type} (nstep_arg : Z) (tr : Transition Obs)
  (self : NS.t Obs) :
  NS.nstep self = 1 -> len (NS.nstep_buffer self) <= 1 ->
  NS.push nstep_arg tr self
    = (NS.mk (P.push tr (NS.store self)).1 1 [tr],
       (P.push tr (NS.store self)).2).
Proof.
  intros Hn Hw. destruct self as [s n w]. simpl in *. subst n.
  assert (Hwin : deque_append 1 w tr = [tr]).
  { destruct w as [|x [|y w]]; try reflexivity.
    unfold len in Hw. simpl in Hw. lia. }
  unfold NS.push. py_unfold. simpl. rewrite Hwin. simpl.
  unfold NS.on_store. simpl. destruct tr as [st ac rw ns dn]. simpl.
  unfold NS.alpha. simpl.
  destruct (P.push _ s) as [s' o]. reflexivity.
Qed.

(** X18.  With [nstep = 1] the n-step buffer stores every pushed
    transition as it is: after any run of pushes into fresh buffers of the
    same arguments, its store is the [PriortizedReplayBuffer] that was
    pushed the same transitions. *)
Theorem nstep_one_is_priority_buffer {Obs : Type} (c : Z) (a b i e : R)
  (items : list (Z * Transition Obs)) (p0 : P.t Obs) (n0 : NS.t Obs) :
  0 < c ->
  P.__init__ c a b i e = Ok p0 -> NS.__init__ c 1 a b i e = Ok n0 ->
  exists p n,
    PS.pushes (map snd items) p0 = (p, Ok tt) /\
    NSS.pushes items n0 = (n, Ok tt) /\
    NS.store n = p.
Proof.
  intros Hc Hp0 Hn0.
  pose proof (PF.priority_ring_init c a b i e p0 Hc Hp0) as Hr.
  assert (Hs : NS.store n0 = p0 /\ NS.nstep n0 = 1 /\ len (NS.nstep_buffer n0) <= 1).
  { rewrite NSF.rainbow_init_nonneg in Hn0 by lia.
    rewrite PF.priority_init_nonneg in Hp0 by lia.
    inversion Hn0. inversion Hp0. unfold len. simpl. repeat split; lia. }
  clear Hp0 Hn0. destruct Hs as (Hst & Hn & Hw). subst p0.
  revert n0 Hr Hn Hw. induction items as [|[x tr] items IH]; intros n0 Hr Hn Hw.
  - exists (NS.store n0), n0. repeat split; reflexivity.
  - destruct (PF.priority_push_ring (NS.store n0) tr Hr) as (mp & E1 & _).
    pose proof (push_window_of_one x tr n0 Hn Hw) as E2.
    rewrite E1 in E2. simpl in E2.
    destruct (IH (NS.mk (PS.pushed tr mp (NS.store n0)) 1 [tr]))
      as (p & n & Hp & Hq & Heq).
    + simpl. apply PF.pushed_ring. exact Hr.
    + reflexivity.
    + unfold len. simpl. lia.
    + exists p, n. unfold PS.pushes, NSS.pushes in *. simpl.
      unfold bind at 1. rewrite E1. unfold bind at 1. rewrite E2.
      repeat split; assumption.
Qed.

Lemma nstep_one_is_priority_buffer_witness :
  exists p n,
    PS.pushes (map snd [(1, demo_transition); (1, demo_transition)])
      (P.mk 4 P.default_alpha P.default_beta
            P.default_beta_increment_per_sampling P.default_epsilon
            [] (replicate (Z.to_nat 4) 0%R) 0) = (p, Ok tt) /\
    NSS.pushes [(1, demo_transition); (1, demo_transition)]
      (NS.mk (P.mk 4 P.default_alpha P.default_beta
                   P.default_beta_increment_per_sampling P.default_epsilon
                   [] (replicate (Z.to_nat 4) 0%R) 0) 1 []) = (n, Ok tt) /\
    NS.store n = p.
Proof.
  apply (nstep_one_is_priority_buffer 4 P.default_alpha P.default_beta
           P.default_beta_increment_per_sampling P.default_epsilon
           [(1, demo_transition); (1, demo_transition)]).
  - lia.
  - reflexivity.
  - reflexivity.
Defined.

(** ** Priorities before and after an update *)




(** X20.  A priority raised by [update_priorities] to at least every
    priority of the array is the one the next pushed transition gets. *)
Theorem raised_priority_is_inherited {Obs : Type} (self : P.t Obs) (idx : Z)
  (p : R) (data : Transition Obs) :
  PS.ring self -> P.memory self <> [] ->
  0 <= idx < P.capacity self ->
  Forall (fun x => (x <= p)%R) (P.priorities self) ->
  exists s1 s2,
    P.update_priorities [idx] [p] self = (s1, Ok tt) /\
    P.push data s1 = (s2, Ok tt) /\
    P.priorities s2 !! Z.to_nat (P.pos self) = Some p.
Proof.
  intros Hr Hne Hidx Hall.
  assert (Hlen : len (P.priorities self) = P.capacity self) by apply Hr.
  set (s1 := P.set_priorities (<[Z.to_nat idx := p]> (P.priorities self)) self).
  assert (Hr1 : PS.ring s1).
  { destruct Hr as (Hc & Hp & Hrest). unfold PS.ring, s1, len in *. simpl.
    rewrite length_insert. split; [exact Hc|]. split; [exact Hp|exact Hrest]. }
  destruct (PF.priority_push_ring s1 data Hr1) as (mp & Hpush & Hmp).
  exists s1, (PS.pushed data mp s1). split; [|split; [exact Hpush|]].
  - rewrite (update_priorities_cons idx [] p [] self (Z.to_nat idx)).
    + reflexivity.
    + apply py_index_nonneg. unfold len in Hlen. lia.
  - change (P.pos self) with (P.pos s1).
    rewrite (PF.pushed_priority s1 data mp Hr1). f_equal.
    unfold s1 in Hmp. simpl in Hmp.
    destruct (P.memory self) as [|x m]; [congruence|].
    apply np_max_is_max in Hmp.
    apply (is_max_unique _ _ _ Hmp). split.
    + apply list_elem_of_In, list_elem_of_lookup. exists (Z.to_nat idx).
      apply list_lookup_insert_eq. unfold len in Hlen. lia.
    + apply Forall_insert; [exact Hall|lra].
Qed.

Lemma raised_priority_is_inherited_witness :
  exists s1 s2,
    P.update_priorities [0] [5%R] demo_store = (s1, Ok tt) /\
    P.push demo_transition s1 = (s2, Ok tt) /\
    P.priorities s2 !! Z.to_nat (P.pos demo_store) = Some 5%R.
Proof.
  apply (raised_priority_is_inherited demo_store 0 5%R demo_transition).
  - exact demo_store_ring.
  - discriminate.
  - simpl. lia.
  - simpl. repeat constructor; lra.
Defined.
